(** * ModelPredictor: threshold labelling and temporal filtering of predictions

    Shallow embedding of [stock_prediction/models/model_predictor.py]
    (class [ModelPredictor]: [__init__], [evaluate_model],
    [filter_predictions]) and the properties of its signal pipeline.
    The point selection of [plot_stock_predictions], the loop of [test]
    and the data functions of class [StockPredictionModel] in [main.py]
    follow the pipeline.

    Conventions of the embedding.
    - A DataFrame is the list of its rows in positional order.  After
      [reset_index(drop=True)] the index label of a row is its position,
      so the loop variable [idx] of [filter_predictions] is the position
      counted from 0, kept in [Z] because it is subtracted from a negative
      sentinel.
    - [predicted_target] holds the numbers the code stores: [-1] (neutral),
      [0] (minimum), [1] (maximum).  It is an integer here; any other value
      is legal input for [filter_predictions] and is left alone by it.
    - Probabilities and thresholds are rationals: the code only compares
      them with [<] and [>], and on finite floating-point values these
      comparisons agree with the order of the numbers they denote.
    - The [date] field is the sort key of the date column, in the order
      [sort_values] compares it. *)

From Stdlib Require Import ZArith QArith List Bool Lia Sorted Permutation.
Import ListNotations.

Open Scope Z_scope.

(** ** Data model *)

(** The three values of the [predicted_target] column. *)
Definition NEUTRAL : Z := -1.
Definition MINIMUM : Z := 0.
Definition MAXIMUM : Z := 1.

(** A row of the table handed to [evaluate_model]: no prediction columns
    yet.  [indicators] are the values of the configured technical-indicator
    columns, in their configured order; [None] is a missing value (NaN). *)
Record bar := mkBar {
  bar_date : Z;
  bar_close : Q;
  bar_indicators : list (option Q)
}.

(** A row of the table returned by [evaluate_model] and processed by
    [filter_predictions]. *)
Record row := mkRow {
  date : Z;
  close : Q;
  indicators : list (option Q);
  predicted_probability : Q;
  predicted_target : Z
}.

(** [df.at[idx, 'predicted_target'] = v] on the row at hand. *)
Definition set_predicted_target (r : row) (v : Z) : row :=
  mkRow (date r) (close r) (indicators r) (predicted_probability r) v.

(** The [params] dictionary: a key is present ([Some]) or absent, and a
    present key holds a number. *)
Record Params := mkParams {
  p_outputsize : option Z;
  p_min_max_order : option Z;
  p_min_threshold : option Q;
  p_max_threshold : option Q;
  p_window_size : option Z
}.

(** [params.get(key, default)]. *)
Definition get {A : Type} (entry : option A) (default : A) : A :=
  match entry with
  | Some v => v
  | None => default
  end.

(** The object built by [__init__].  [model] stands for the scaler and the
    classifier together: [model X x] is the class-1 probability
    [predict_proba(fit_transform(X))[:, 1]] of the feature row [x] of the
    feature matrix [X]. *)
Record ModelPredictor := mkModelPredictor {
  model : list (list Q) -> list Q -> Q;
  outputsize : Z;
  min_max_order : Z;
  min_threshold : Q;
  max_threshold : Q;
  window_size : Z
}.

(** What a call can do: return a value or raise.  The two error kinds are
    the ones the specification names; the source defines and raises
    neither of them. *)
Inductive error_kind := ConfigurationError | InputContractError.

Inductive outcome (A : Type) :=
| Returned (a : A)
| Raised (e : error_kind).
Arguments Returned {A} a.
Arguments Raised {A} e.

(** ** [ModelPredictor.__init__]

    [mdl] stands for the [model] and [scaler] arguments.  The arguments
    [testing_symbols] and [technical_indicators] name the tables to fetch
    and the columns to read; rows here already hold those columns. *)

Definition init (mdl : list (list Q) -> list Q -> Q) (params : Params)
  : outcome ModelPredictor :=
  Returned
    (mkModelPredictor mdl
       (get (p_outputsize params) 5000)
       (get (p_min_max_order params) 5)
       (get (p_min_threshold params) (1 # 100000)%Q)
       (get (p_max_threshold params) (99999 # 100000)%Q)
       (get (p_window_size params) 5)).

(** ** [ModelPredictor.evaluate_model] *)

(** Strict comparison of two rationals as a boolean, the element test of
    the masks [y_pred_proba < t] and [y_pred_proba > t]. *)
Definition Qlt_bool (x y : Q) : bool := negb (Qle_bool y x).

(** [y[mask] = v]: write [v] where the mask is true. *)
Definition assign_where (mask : list bool) (v : Z) (y : list Z) : list Z :=
  map (fun my : bool * Z => if fst my then v else snd my) (combine mask y).

(** Lines 42-45: start from [-1] everywhere, write [0] below
    [min_threshold], then write [1] above [max_threshold]. *)
Definition predict_labels (min_thr max_thr : Q) (y_pred_proba : list Q)
  : list Z :=
  let y_pred := map (fun _ => -1) y_pred_proba in
  let y_pred :=
    assign_where (map (fun p => Qlt_bool p min_thr) y_pred_proba) 0 y_pred in
  let y_pred :=
    assign_where (map (fun p => Qlt_bool max_thr p) y_pred_proba) 1 y_pred in
  y_pred.

(** The three assignments of lines 42-45, element by element: the write of
    [1] comes last and wins. *)
Definition row_label (min_thr max_thr p : Q) : Z :=
  if Qlt_bool max_thr p then 1 else if Qlt_bool p min_thr then 0 else -1.

Definition is_some {A : Type} (o : option A) : bool :=
  match o with Some _ => true | None => false end.

(** [df.dropna(subset=technical_indicators)]. *)
Definition dropna (df : list bar) : list bar :=
  filter (fun b => forallb is_some (bar_indicators b)) df.

Definition features (b : bar) : list Q :=
  flat_map (fun o => match o with Some v => [v] | None => [] end)
    (bar_indicators b).

(** The table [evaluate_model] returns when it returns: the rows without a
    missing indicator value, each with its probability and its label.
    This covers the tables on which the source runs through and lines
    51-52 change nothing: at least one row is complete (the scaler of line
    38 refuses an empty matrix and raises), index labels are distinct and
    no probability is NaN, so that the left merge on the index followed by
    the second [dropna] keeps exactly the complete rows, in their order.
    Outside these tables the definition says nothing about the source. *)
Definition evaluate_model (self : ModelPredictor) (df : list bar) : list row :=
  let df_clean := dropna df in
  let X := map features df_clean in
  let y_pred_proba := map (model self X) X in
  let y_pred :=
    predict_labels (min_threshold self) (max_threshold self) y_pred_proba in
  map (fun bpt : bar * (Q * Z) =>
         let b := fst bpt in
         mkRow (bar_date b) (bar_close b) (bar_indicators b)
           (fst (snd bpt)) (snd (snd bpt)))
    (combine df_clean (combine y_pred_proba y_pred)).

(** ** [ModelPredictor.filter_predictions] *)

(** [df.sort_values(by='date')]: rows in non-decreasing date order.  The
    default sort kind of the library does not fix the order of rows with
    equal dates; here they keep their input order.  A table whose dates are
    pairwise distinct is arranged the same way by every sort. *)
Fixpoint insert_by_date (r : row) (l : list row) : list row :=
  match l with
  | [] => [r]
  | x :: l' =>
      if date r <=? date x then r :: l else x :: insert_by_date r l'
  end.

Definition sort_values (df : list row) : list row :=
  fold_right insert_by_date [] df.

(** The two running indices of the loop. *)
Record filter_state := mkState {
  last_minima_idx : Z;
  last_maxima_idx : Z
}.

(** One iteration of the loop body (lines 66-76) at index [idx]: the new
    state and the row as the table holds it afterwards. *)
Definition filter_step (w idx : Z) (st : filter_state) (r : row)
  : filter_state * row :=
  if predicted_target r =? 0 then
    if idx - last_minima_idx st >? w
    then (mkState idx (last_maxima_idx st), r)
    else (st, set_predicted_target r (-1))
  else if predicted_target r =? 1 then
    if idx - last_maxima_idx st >? w
    then (mkState (last_minima_idx st) idx, r)
    else (st, set_predicted_target r (-1))
  else (st, r).

(** [for idx, row in df.iterrows()], from index [idx] on.  The write of
    an iteration touches only the row at hand, which the loop has already
    read, so every later row is read as the sorted table had it. *)
Fixpoint filter_rows (w idx : Z) (st : filter_state) (rows : list row)
  : list row :=
  match rows with
  | [] => []
  | r :: rest =>
      let sr := filter_step w idx st r in
      snd sr :: filter_rows w (idx + 1) (fst sr) rest
  end.

Definition filter_predictions (self : ModelPredictor) (df : list row)
  : list row :=
  let df := sort_values df in
  let st := mkState (- window_size self - 1) (- window_size self - 1) in
  filter_rows (window_size self) 0 st df.

(** Lines 122-123 of [test]: the two stages run on one symbol's table. *)
Definition predict_symbol (self : ModelPredictor) (df : list bar) : list row :=
  filter_predictions self (evaluate_model self df).

(** ** Reading a table *)

(** The [predicted_target] value at position [i], if the table is that
    long. *)
Definition target_at (df : list row) (i : nat) : option Z :=
  option_map predicted_target (nth_error df i).

(** Strictly increasing dates: the table is date-sorted and no date occurs
    twice. *)
Definition date_sorted (df : list row) : Prop :=
  Sorted (fun r1 r2 => date r1 < date r2) df.

(** Non-decreasing dates, what [sort_values] establishes. *)
Definition date_ordered (df : list row) : Prop :=
  Sorted (fun r1 r2 => date r1 <= date r2) df.

(** Two rows that agree on every column but [predicted_target]. *)
Definition same_other_fields (r r' : row) : Prop :=
  date r' = date r /\ close r' = close r /\ indicators r' = indicators r /\
  predicted_probability r' = predicted_probability r.

(** The two kinds of signal. *)
Definition signal_kind (k : Z) : Prop := k = MINIMUM \/ k = MAXIMUM.

(** What one pass may do to a row: keep it, or turn a signal into
    neutral. *)
Definition downgraded (r r' : row) : Prop :=
  same_other_fields r r' /\
  (predicted_target r' = predicted_target r \/
   ((predicted_target r = MINIMUM \/ predicted_target r = MAXIMUM) /\
    predicted_target r' = NEUTRAL)).

(** ** The sort kind of line 60

    [sort_values(by='date')] runs the default sort kind, which arranges the
    rows in non-decreasing date order and leaves the order of rows with
    equal dates open.  [sorts_by_date sort] says that [sort] is such an
    arrangement, and [filter_predictions_with sort] is [filter_predictions]
    with line 60 carried out by [sort]; [filter_predictions] itself is
    [filter_predictions_with sort_values]. *)

Definition sorts_by_date (sort : list row -> list row) : Prop :=
  forall l, Permutation l (sort l) /\ date_ordered (sort l).




(** ** The loop seen through one kind of signal

    [is_kind k] marks the rows labelled [k]; [last_of k] is the running
    index the loop consults for that kind.  [accept_mask] is the loop
    restricted to one kind: from the candidate marks alone it computes which
    candidates keep their label.  [filter_rows_kind] shows that the loop
    agrees with it for minima and for maxima. *)

Definition is_kind (k : Z) (r : row) : bool := predicted_target r =? k.

Definition last_of (k : Z) (st : filter_state) : Z :=
  if k =? 0 then last_minima_idx st else last_maxima_idx st.

Fixpoint accept_mask (w idx last : Z) (cand : list bool) : list bool :=
  match cand with
  | [] => []
  | c :: rest =>
      if c && (idx - last >? w)
      then true :: accept_mask w (idx + 1) idx rest
      else false :: accept_mask w (idx + 1) last rest
  end.

(** ** Sample data *)

(** A predictor with given window and thresholds whose
    classifier returns the first feature, and a table with consecutive
    dates carrying given labels. *)
Definition sample_predictor (w : Z) (mn mx : Q) : ModelPredictor :=
  mkModelPredictor (fun _ x => hd 0%Q x) 5000 5 mn mx w.

Fixpoint sample_table (d : Z) (labels : list Z) : list row :=
  match labels with
  | [] => []
  | t :: rest => mkRow d 1%Q [] (1 # 2)%Q t :: sample_table (d + 1) rest
  end.

(** ** [ModelPredictor.plot_stock_predictions]: the points drawn

    The rows handed to the two [scatter] calls for predicted signals
    (lines 89 and 92). *)

Definition minima_points (df : list row) : list row :=
  filter (fun r => predicted_target r =? 0) df.

Definition maxima_points (df : list row) : list row :=
  filter (fun r => predicted_target r =? 1) df.

(** ** [ModelPredictor.test]

    The loop over [testing_symbols] with [plot_graph=False].
    [get_indicators s outputsize min_max_order] stands for
    [StockUtils(symbol=s).get_indicators(...)], which lies outside this
    file.  [None] stands for a call that raises.  On a table without a
    complete row [evaluate_model] raises at line 38 (the scaler refuses an
    empty matrix) and the exception leaves [test]; and the local
    [df_predictions] is unbound until the first iteration assigns it, so
    returning it after no iteration raises as well. *)


Section TestMethod.

Context {symbol : Type}.
Variable get_indicators : symbol -> Z -> Z -> list bar.



End TestMethod.

(** Number of marked positions. *)
Definition count_true (m : list bool) : nat := length (filter (fun b => b) m).

(** ** [main.py]: class [StockPredictionModel] *)

Module StockPredictionModel.

(** A row of the table [get_indicators] returns for training: the
    indicator columns and the two turning-point columns, each possibly
    missing (NaN). *)
Record stock_row := mkStockRow {
  sr_indicators : list (option Q);
  loc_min : option Q;
  loc_max : option Q
}.

(** [x > 0] on a column entry; a comparison with NaN is false. *)
Definition positive (x : option Q) : bool :=
  match x with
  | Some v => Qlt_bool 0 v
  | None => false
  end.

(** [gather_stock_data]: the tables of the symbols, each row tagged with
    its symbol, appended in the order of the symbols. *)
Definition gather_stock_data {symbol A : Type}
    (get_indicators : symbol -> list A) (stock_symbols : list symbol)
  : list (symbol * A) :=
  fold_left
    (fun combined_df s => combined_df ++ map (pair s) (get_indicators s))
    stock_symbols [].

(** [prepare_training_data]: keep the rows marked as a turning point, set
    [target] from [loc_max], keep the indicator columns and [target], drop
    the rows with a missing value. *)
Definition prepare_training_data (df : list stock_row)
  : list (list (option Q) * Z) :=
  let data :=
    filter (fun r => positive (loc_min r) || positive (loc_max r)) df in
  let target := map (fun r => if positive (loc_max r) then 1 else 0) data in
  let data := combine (map sr_indicators data) target in
  filter (fun xt : list (option Q) * Z => forallb is_some (fst xt)) data.

(** Line 102: [(y_pred_proba >= threshold).astype(int)]. *)
Definition threshold_labels (threshold : Q) (y_pred_proba : list Q) : list Z :=
  map (fun p => if Qle_bool threshold p then 1 else 0) y_pred_proba.

(** [evaluate_model] of this class.  [mdl] is the fitted scaler followed
    by the trained classifier, as [train_model] leaves them: the scaler is
    applied with [transform], so the probability of a row depends on that
    row alone. *)
Definition evaluate_model (mdl : list Q -> Q) (threshold : Q) (df : list bar)
  : list row :=
  let df_clean := dropna df in
  let X := map features df_clean in
  let y_pred_proba := map mdl X in
  let y_pred := threshold_labels threshold y_pred_proba in
  map (fun bpt : bar * (Q * Z) =>
         let b := fst bpt in
         mkRow (bar_date b) (bar_close b) (bar_indicators b)
           (fst (snd bpt)) (snd (snd bpt)))
    (combine df_clean (combine y_pred_proba y_pred)).

End StockPredictionModel.

(** ** Proof automation *)

(** Case analysis on the acceptance test at the head of [accept_mask]. *)
Ltac mask_head :=
  match goal with
  | |- context [?c && (?i - ?l >? ?w)] =>
      let C := fresh "C" in let G := fresh "G" in
      destruct c eqn:C; cbn [andb];
      [pose proof (Zgt_cases (i - l) w) as G; destruct (i - l >? w) |]
  | H : context [?c && (?i - ?l >? ?w)] |- _ =>
      let C := fresh "C" in let G := fresh "G" in
      destruct c eqn:C; cbn [andb] in H;
      [pose proof (Zgt_cases (i - l) w) as G; destruct (i - l >? w) |]
  end.

(** * Properties of the embedding *)

Lemma filter_rows_kind (w k : Z) :
  signal_kind k ->
  forall rows idx st,
    map (is_kind k) (filter_rows w idx st rows) =
    accept_mask w idx (last_of k st) (map (is_kind k) rows).
Proof.
  intros Hk rows.
  induction rows as [|r rest IH]; intros idx st; [reflexivity|].
  cbn [filter_rows map accept_mask].
  rewrite IH. clear IH.
  unfold filter_step, is_kind, last_of.
  destruct Hk as [-> | ->]; unfold MINIMUM, MAXIMUM; cbn [Z.eqb];
    destruct (predicted_target r =? 0) eqn:E0;
    destruct (predicted_target r =? 1) eqn:E1;
    try (apply Z.eqb_eq in E0; apply Z.eqb_eq in E1; lia);
    cbn [andb];
    try destruct (idx - last_minima_idx st >? w);
    try destruct (idx - last_maxima_idx st >? w);
    cbn; rewrite ?E0, ?E1; reflexivity.
Qed.

(** *** Facts about [accept_mask] *)

Lemma accept_mask_length w cand :
  forall idx last, length (accept_mask w idx last cand) = length cand.
Proof.
  induction cand as [|c rest IH]; intros idx last; [reflexivity|].
  cbn [accept_mask]. destruct (c && _); cbn [length]; now rewrite IH.
Qed.

(** Only candidates are accepted. *)
Lemma accept_mask_cand w cand :
  forall idx last j,
    nth j (accept_mask w idx last cand) false = true ->
    nth j cand false = true.
Proof.
  induction cand as [|c rest IH]; intros idx last j H.
  - destruct j; discriminate.
  - cbn [accept_mask] in H. destruct j as [|j].
    + mask_head; cbn in H; try discriminate; reflexivity.
    + cbn [nth]. destruct (c && _); cbn [nth] in H; eauto.
Qed.

(** A candidate with no accepted row before it is judged against the
    running index the loop started with. *)
Lemma accept_mask_first w cand :
  forall idx last b,
    nth b cand false = true ->
    (forall c, (c < b)%nat -> nth c (accept_mask w idx last cand) false = false) ->
    (nth b (accept_mask w idx last cand) false = true <->
     idx + Z.of_nat b - last > w).
Proof.
  induction cand as [|c rest IH]; intros idx last b Hb Hnone.
  - destruct b; discriminate.
  - destruct b as [|b].
    + cbn [nth] in Hb. subst c. cbn [accept_mask andb].
      pose proof (Zgt_cases (idx - last) w) as G.
      destruct (idx - last >? w); cbn [nth].
      * split; [lia | reflexivity].
      * split; [discriminate | lia].
    + cbn [nth] in Hb.
      assert (H0 := Hnone 0%nat ltac:(lia)).
      assert (Hn : forall c', (c' < b)%nat ->
                nth (S c') (accept_mask w idx last (c :: rest)) false = false)
        by (intros c' Hc'; apply Hnone; lia).
      cbn [accept_mask] in *.
      destruct (c && (idx - last >? w)); cbn [nth] in *; [discriminate|].
      rewrite (IH (idx + 1) last b Hb Hn). lia.
Qed.

(** A candidate whose latest accepted predecessor sits at [a] is accepted
    exactly when it is more than [w] rows after [a]. *)
Lemma accept_mask_next w cand :
  forall idx last a b,
    (a < b)%nat ->
    nth a (accept_mask w idx last cand) false = true ->
    (forall c, (a < c < b)%nat ->
               nth c (accept_mask w idx last cand) false = false) ->
    nth b cand false = true ->
    (nth b (accept_mask w idx last cand) false = true <->
     Z.of_nat b - Z.of_nat a > w).
Proof.
  induction cand as [|c rest IH]; intros idx last a b Hab Ha Hbetween Hb.
  - destruct b; discriminate.
  - destruct b as [|b]; [lia|]. cbn [nth] in Hb.
    destruct a as [|a].
    + assert (Hn : forall c', (c' < b)%nat ->
                nth (S c') (accept_mask w idx last (c :: rest)) false = false)
        by (intros c' Hc'; apply Hbetween; lia).
      cbn [accept_mask] in *.
      destruct (c && (idx - last >? w)); cbn [nth] in *; [|discriminate].
      rewrite (accept_mask_first w rest (idx + 1) idx b Hb Hn). lia.
    + assert (Hn : forall c', (a < c' < b)%nat ->
                nth (S c') (accept_mask w idx last (c :: rest)) false = false)
        by (intros c' Hc'; apply Hbetween; lia).
      cbn [accept_mask] in *.
      destruct (c && (idx - last >? w)); cbn [nth] in *;
        rewrite (IH _ _ a b ltac:(lia) Ha Hn Hb); lia.
Qed.

(** Nothing is accepted within [w] rows of the running index. *)
Lemma accept_mask_close w cand :
  forall idx last j,
    idx + Z.of_nat j - last <= w ->
    nth j (accept_mask w idx last cand) false = false.
Proof.
  induction cand as [|c rest IH]; intros idx last j Hj.
  - destruct j; reflexivity.
  - cbn [accept_mask]. destruct j as [|j].
    + mask_head; cbn [nth]; try reflexivity. lia.
    + mask_head; cbn [nth]; apply IH; lia.
Qed.

(** Nothing is accepted within [w] rows after an accepted row. *)
Lemma accept_mask_suppress w cand :
  forall idx last i j,
    (i < j)%nat ->
    nth i (accept_mask w idx last cand) false = true ->
    Z.of_nat j - Z.of_nat i <= w ->
    nth j (accept_mask w idx last cand) false = false.
Proof.
  induction cand as [|c rest IH]; intros idx last i j Hij Hi Hgap.
  - destruct j; reflexivity.
  - destruct j as [|j]; [lia|].
    cbn [accept_mask] in *. destruct i as [|i].
    + destruct (c && (idx - last >? w)); cbn [nth] in *; [|discriminate].
      apply accept_mask_close. lia.
    + destruct (c && (idx - last >? w)); cbn [nth] in *;
        apply (IH _ _ i j); auto; lia.
Qed.

(** Before any position, either nothing is marked or there is a latest
    marked position. *)
Lemma latest_marked (m : list bool) (b : nat) :
  (forall c, (c < b)%nat -> nth c m false = false) \/
  (exists a, (a < b)%nat /\ nth a m false = true /\
             forall c, (a < c < b)%nat -> nth c m false = false).
Proof.
  induction b as [|b IH].
  - left. intros c Hc. lia.
  - destruct (nth b m false) eqn:Eb.
    + right. exists b. split; [lia|]. split; [assumption|]. intros c Hc. lia.
    + destruct IH as [IH | (a & Ha & Ht & Hbetween)].
      * left. intros c Hc.
        destruct (Nat.eq_dec c b) as [-> | Hne]; [assumption | apply IH; lia].
      * right. exists a. split; [lia|]. split; [assumption|]. intros c Hc.
        destruct (Nat.eq_dec c b) as [-> | Hne];
          [assumption | apply Hbetween; lia].
Qed.

(** The marks of one kind, read through [target_at]. *)
Lemma is_kind_nth (k : Z) (df : list row) (j : nat) :
  nth j (map (is_kind k) df) false = true <-> target_at df j = Some k.
Proof.
  unfold target_at. revert j.
  induction df as [|r rest IH]; intros j.
  - destruct j; cbn; split; discriminate.
  - destruct j as [|j]; cbn [map nth nth_error option_map].
    + unfold is_kind. rewrite Z.eqb_eq. split; congruence.
    + apply IH.
Qed.

Lemma is_kind_nth_false (k : Z) (df : list row) (j : nat) :
  nth j (map (is_kind k) df) false = false <-> target_at df j <> Some k.
Proof.
  rewrite <- is_kind_nth. destruct (nth j (map (is_kind k) df) false);
    split; congruence.
Qed.

(** *** Facts about [sort_values] *)

Lemma date_sorted_ordered (df : list row) : date_sorted df -> date_ordered df.
Proof.
  unfold date_sorted, date_ordered.
  induction 1 as [|r l Hl IH Hhd]; constructor; auto.
  destruct Hhd; constructor; lia.
Qed.

Lemma insert_by_date_ordered (r : row) (l : list row) :
  date_ordered l -> date_ordered (insert_by_date r l).
Proof.
  unfold date_ordered.
  induction 1 as [|x l Hl IH Hhd]; cbn [insert_by_date].
  - repeat constructor.
  - destruct (Z.leb_spec (date r) (date x)).
    + repeat constructor; auto.
    + constructor; auto.
      destruct Hhd as [|y l' Hxy]; cbn [insert_by_date].
      * constructor. lia.
      * destruct (date r <=? date y); constructor; lia.
Qed.

Lemma sort_values_ordered (df : list row) : date_ordered (sort_values df).
Proof.
  induction df as [|r l IH]; cbn [sort_values fold_right].
  - constructor.
  - apply insert_by_date_ordered, IH.
Qed.

(** Sorting a table whose dates never decrease changes nothing. *)
Lemma sort_values_id (df : list row) : date_ordered df -> sort_values df = df.
Proof.
  unfold date_ordered.
  induction 1 as [|r l Hl IH Hhd]; [reflexivity|].
  cbn [sort_values fold_right]. fold (sort_values l). rewrite IH.
  destruct Hhd as [|x l' Hrx]; cbn [insert_by_date]; [reflexivity|].
  destruct (Z.leb_spec (date r) (date x)); [reflexivity | lia].
Qed.

(** The sort looks at dates only: tables that agree on dates row by row
    are rearranged alike, so any row-wise relation between them survives. *)
Lemma insert_by_date_Forall2 (R : row -> row -> Prop) r1 r2 l1 l2 :
  date r1 = date r2 ->
  R r1 r2 ->
  Forall2 (fun a b => date a = date b /\ R a b) l1 l2 ->
  Forall2 (fun a b => date a = date b /\ R a b)
    (insert_by_date r1 l1) (insert_by_date r2 l2).
Proof.
  intros Hd HR. induction 1 as [|x1 x2 l1 l2 [Hx HRx] Hl IH];
    cbn [insert_by_date].
  - repeat constructor; auto.
  - rewrite <- Hd, <- Hx. destruct (date r1 <=? date x1).
    + repeat constructor; auto.
    + constructor; auto.
Qed.

Lemma sort_values_Forall2 (R : row -> row -> Prop) l1 l2 :
  Forall2 (fun a b => date a = date b /\ R a b) l1 l2 ->
  Forall2 (fun a b => date a = date b /\ R a b)
    (sort_values l1) (sort_values l2).
Proof.
  induction 1 as [|x1 x2 l1 l2 [Hx HRx] Hl IH]; cbn [sort_values fold_right].
  - constructor.
  - apply insert_by_date_Forall2; auto.
Qed.

Lemma insert_by_date_perm (r : row) (l : list row) :
  Permutation (r :: l) (insert_by_date r l).
Proof.
  induction l as [|x l IH]; cbn [insert_by_date]; [reflexivity|].
  destruct (date r <=? date x); [reflexivity|].
  rewrite perm_swap. now constructor.
Qed.

Lemma sort_values_perm (df : list row) : Permutation df (sort_values df).
Proof.
  induction df as [|r l IH]; cbn [sort_values fold_right]; [constructor|].
  fold (sort_values l). rewrite <- insert_by_date_perm. now constructor.
Qed.

Lemma date_ordered_head_least (a : row) (l : list row) :
  date_ordered (a :: l) -> forall x, In x l -> date a <= date x.
Proof.
  unfold date_ordered. intros H.
  apply Sorted_StronglySorted in H; [|intros x y z; lia].
  inversion H as [|? ? _ Hall]; subst.
  intros x Hx. rewrite Forall_forall in Hall. now apply Hall.
Qed.

Lemma date_ordered_tail (a : row) (l : list row) :
  date_ordered (a :: l) -> date_ordered l.
Proof. unfold date_ordered. intros H. now inversion H. Qed.

(** Two date-ordered arrangements of the same rows coincide when no date
    occurs twice. *)
Lemma date_ordered_perm_eq (s1 : list row) :
  forall s2,
    date_ordered s1 -> date_ordered s2 ->
    Permutation s1 s2 ->
    NoDup (map date s1) ->
    s1 = s2.
Proof.
  induction s1 as [|a t1 IH]; intros s2 H1 H2 Hp Hnd.
  - apply Permutation_nil in Hp. now subst.
  - destruct s2 as [|b t2];
      [apply Permutation_sym, Permutation_nil in Hp; discriminate|].
    assert (Hab : a = b).
    { assert (Ha : In a (b :: t2))
        by (eapply Permutation_in; [exact Hp | now left]).
      assert (Hb : In b (a :: t1))
        by (eapply Permutation_in;
            [apply Permutation_sym, Hp | now left]).
      destruct Hb as [Hb | Hb]; [exact Hb|].
      destruct Ha as [Ha | Ha]; [now symmetry|].
      pose proof (date_ordered_head_least a t1 H1 b Hb).
      pose proof (date_ordered_head_least b t2 H2 a Ha).
      exfalso. inversion Hnd as [|? ? Hnot _]; subst.
      apply Hnot. replace (date a) with (date b) by lia.
      now apply in_map. }
    subst b. f_equal.
    apply IH.
    + eapply date_ordered_tail, H1.
    + eapply date_ordered_tail, H2.
    + eapply Permutation_cons_inv, Hp.
    + now inversion Hnd.
Qed.





Lemma sort_values_sorts : sorts_by_date sort_values.
Proof.
  intros l. split; [apply sort_values_perm | apply sort_values_ordered].
Qed.

(** *** Facts about the loop *)

Lemma filter_step_date w idx st r : date (snd (filter_step w idx st r)) = date r.
Proof.
  unfold filter_step.
  repeat match goal with |- context [if ?b then _ else _] => destruct b end;
    reflexivity.
Qed.


Lemma filter_rows_ordered w rows :
  forall idx st, date_ordered rows -> date_ordered (filter_rows w idx st rows).
Proof.
  unfold date_ordered.
  induction rows as [|r rest IH]; intros idx st H; cbn [filter_rows].
  - constructor.
  - inversion H as [|? ? Hrest Hhd]; subst. constructor; [apply IH, Hrest|].
    destruct Hhd as [|x l' Hrx]; cbn [filter_rows]; constructor.
    rewrite !filter_step_date. exact Hrx.
Qed.

Lemma filter_step_downgraded w idx st r :
  downgraded r (snd (filter_step w idx st r)).
Proof.
  unfold filter_step, downgraded, same_other_fields, MINIMUM, MAXIMUM, NEUTRAL.
  destruct (Z.eqb_spec (predicted_target r) 0) as [E0|E0];
    [|destruct (Z.eqb_spec (predicted_target r) 1) as [E1|E1]];
    repeat match goal with |- context [if ?b then _ else _] => destruct b end;
    cbn; intuition auto.
Qed.

Lemma filter_rows_downgraded w rows :
  forall idx st, Forall2 downgraded rows (filter_rows w idx st rows).
Proof.
  induction rows as [|r rest IH]; intros idx st; cbn [filter_rows];
    constructor; [apply filter_step_downgraded | apply IH].
Qed.


(** *** Facts about the labelling *)

Lemma Qlt_bool_iff (x y : Q) : Qlt_bool x y = true <-> (x < y)%Q.
Proof.
  unfold Qlt_bool. rewrite negb_true_iff.
  split; intros H.
  - apply Qnot_le_lt. intros Hle. apply Qle_bool_iff in Hle. congruence.
  - destruct (Qle_bool y x) eqn:E; [|reflexivity].
    apply Qle_bool_iff in E. exfalso. exact (Qlt_not_le _ _ H E).
Qed.

Lemma predict_labels_map (mn mx : Q) (ps : list Q) :
  predict_labels mn mx ps = map (row_label mn mx) ps.
Proof.
  unfold predict_labels, assign_where, row_label.
  induction ps as [|p ps IH]; [reflexivity|].
  cbn [map combine fst snd].
  f_equal; auto; destruct (Qlt_bool mx p), (Qlt_bool p mn); reflexivity.
Qed.

Lemma in_combine_map {A B : Type} (f : A -> B) (l : list A) a b :
  In (a, b) (combine l (map f l)) -> b = f a.
Proof.
  induction l as [|x l IH]; cbn; [tauto|].
  intros [H | H]; [congruence | auto].
Qed.

(** Every row [evaluate_model] returns carries the label computed from its
    own probability. *)
Lemma evaluate_model_label (self : ModelPredictor) (df : list bar) (r : row) :
  In r (evaluate_model self df) ->
  predicted_target r =
  row_label (min_threshold self) (max_threshold self) (predicted_probability r).
Proof.
  unfold evaluate_model. rewrite predict_labels_map. intros H.
  apply in_map_iff in H. destruct H as ([b [p l]] & <- & H).
  apply in_combine_r in H. apply in_combine_map in H.
  cbn. exact H.
Qed.

(** *** From the loop to [filter_predictions] *)

Lemma filter_predictions_kind (self : ModelPredictor) (df : list row) (k : Z) :
  signal_kind k ->
  map (is_kind k) (filter_predictions self df) =
  accept_mask (window_size self) 0 (- window_size self - 1)
    (map (is_kind k) (sort_values df)).
Proof.
  intros Hk. unfold filter_predictions.
  rewrite (filter_rows_kind _ k Hk). f_equal.
  unfold last_of. destruct (k =? 0); reflexivity.
Qed.

Lemma filter_predictions_sorted (self : ModelPredictor) (df : list row) :
  date_sorted df ->
  filter_predictions self df =
  filter_rows (window_size self) 0
    (mkState (- window_size self - 1) (- window_size self - 1)) df.
Proof.
  intros H. unfold filter_predictions.
  now rewrite (sort_values_id df (date_sorted_ordered df H)).
Qed.

Lemma Forall2_nth_error {A B : Type} (R : A -> B -> Prop) l l' :
  Forall2 R l l' ->
  forall j a, nth_error l j = Some a ->
              exists b, nth_error l' j = Some b /\ R a b.
Proof.
  induction 1 as [|x y l l' Hxy Hl IH]; intros j a Hj.
  - destruct j; discriminate.
  - destruct j as [|j]; cbn [nth_error] in *.
    + injection Hj as <-. eauto.
    + eauto.
Qed.

Lemma signal_not_neutral (k : Z) : signal_kind k -> k <> NEUTRAL.
Proof. unfold signal_kind, MINIMUM, MAXIMUM, NEUTRAL. lia. Qed.

(** A candidate either keeps its label or becomes neutral. *)
Lemma candidate_fate (self : ModelPredictor) (df : list row) (k : Z) (j : nat) :
  signal_kind k ->
  target_at (sort_values df) j = Some k ->
  nth j (map (is_kind k) (filter_predictions self df)) false = false ->
  target_at (filter_predictions self df) j = Some NEUTRAL.
Proof.
  intros Hk Hj Hno. apply is_kind_nth_false in Hno.
  unfold target_at in *.
  destruct (nth_error (sort_values df) j) as [r|] eqn:Er; [|discriminate].
  cbn in Hj. injection Hj as Hr.
  destruct (Forall2_nth_error _ _ _
              (filter_rows_downgraded (window_size self) (sort_values df) 0
                 (mkState (- window_size self - 1) (- window_size self - 1)))
              j r Er) as (r' & Er' & _ & Ht).
  fold (filter_predictions self df) in Er'.
  rewrite Er' in *. cbn in *.
  destruct Ht as [Ht | [_ Ht]]; [|now rewrite Ht].
  exfalso. apply Hno. congruence.
Qed.

(** *** Further facts used by the claims *)

(** The loop reads nothing but [predicted_target]. *)
Lemma filter_step_target w idx st a b :
  predicted_target a = predicted_target b ->
  fst (filter_step w idx st a) = fst (filter_step w idx st b) /\
  predicted_target (snd (filter_step w idx st a)) =
  predicted_target (snd (filter_step w idx st b)).
Proof.
  intros H. unfold filter_step. rewrite H.
  repeat match goal with |- context [if ?c then _ else _] => destruct c end;
    cbn; auto.
Qed.

Lemma filter_rows_targets w rows rows' :
  Forall2 (fun a b => date a = date b /\
                      predicted_target a = predicted_target b) rows rows' ->
  forall idx st,
    map predicted_target (filter_rows w idx st rows) =
    map predicted_target (filter_rows w idx st rows').
Proof.
  induction 1 as [|a b l l' [_ Hab] Hl IH]; intros idx st; [reflexivity|].
  cbn [filter_rows map].
  destruct (filter_step_target w idx st a b Hab) as [-> ->].
  f_equal. apply IH.
Qed.

(** Tables with the same dates and the label [k] at the same rows come
    back with the label [k] at the same rows. *)
Lemma filter_predictions_kind_congr (self : ModelPredictor)
    (df1 df2 : list row) (k : Z) :
  signal_kind k ->
  Forall2 (fun r1 r2 => date r1 = date r2 /\ is_kind k r1 = is_kind k r2)
    df1 df2 ->
  map (is_kind k) (sort_values df1) = map (is_kind k) (sort_values df2) /\
  map (is_kind k) (filter_predictions self df1) =
  map (is_kind k) (filter_predictions self df2).
Proof.
  intros Hk Hsame.
  assert (Hraw : map (is_kind k) (sort_values df1) =
                 map (is_kind k) (sort_values df2)).
  { apply (sort_values_Forall2 (fun r1 r2 => is_kind k r1 = is_kind k r2))
      in Hsame.
    induction Hsame as [|a b l l' [_ Hab] Hl IH]; [reflexivity|].
    cbn [map]. now rewrite Hab, IH. }
  split; [exact Hraw|].
  rewrite !(filter_predictions_kind self _ k Hk). now rewrite Hraw.
Qed.

Lemma insert_by_date_length (r : row) (l : list row) :
  length (insert_by_date r l) = S (length l).
Proof.
  induction l as [|x l IH]; cbn [insert_by_date]; [reflexivity|].
  destruct (date r <=? date x); cbn [length]; auto.
Qed.

Lemma sort_values_length (df : list row) : length (sort_values df) = length df.
Proof.
  induction df as [|r l IH]; [reflexivity|].
  cbn [sort_values fold_right]. fold (sort_values l).
  now rewrite insert_by_date_length, IH.
Qed.

(** *** The pipeline on concrete tables *)

(** Probabilities 0.00001, 0.00002, 0.5, 0.99999, 0.99998 with thresholds
    0.1 and 0.9 and a window of 1. *)
Example scenario_window_1 :
  map predicted_target
    (predict_symbol (sample_predictor 1 (1 # 10) (9 # 10))
       [mkBar 0 10 [Some (1 # 100000)%Q]; mkBar 1 11 [Some (2 # 100000)%Q];
        mkBar 2 12 [Some (1 # 2)%Q]; mkBar 3 13 [Some (99999 # 100000)%Q];
        mkBar 4 14 [Some (99998 # 100000)%Q]]) =
  [MINIMUM; NEUTRAL; NEUTRAL; MAXIMUM; NEUTRAL].
Proof. reflexivity. Qed.

(** The same table with a window of 0: every signal is kept. *)
Example scenario_window_0 :
  map predicted_target
    (predict_symbol (sample_predictor 0 (1 # 10) (9 # 10))
       [mkBar 0 10 [Some (1 # 100000)%Q]; mkBar 1 11 [Some (2 # 100000)%Q];
        mkBar 2 12 [Some (1 # 2)%Q]; mkBar 3 13 [Some (99999 # 100000)%Q];
        mkBar 4 14 [Some (99998 # 100000)%Q]]) =
  [MINIMUM; MINIMUM; NEUTRAL; MAXIMUM; MAXIMUM].
Proof. reflexivity. Qed.

(** Rows with a missing indicator value are dropped, and rows out of date
    order are sorted before the loop runs. *)
Example scenario_unsorted_with_gap :
  map (fun r => (date r, predicted_target r))
    (predict_symbol (sample_predictor 1 (1 # 10) (9 # 10))
       [mkBar 2 12 [Some (1 # 100)%Q]; mkBar 1 11 [None];
        mkBar 0 10 [Some (1 # 100)%Q]; mkBar 3 13 [Some (1 # 100)%Q]]) =
  [(0, MINIMUM); (2, NEUTRAL); (3, MINIMUM)].
Proof. reflexivity. Qed.

(** * The claims *)

(** C1 (spacing invariant).  In the table returned by [filter_predictions],
    two rows that carry the same signal label (both minimum or both maximum)
    with no row of that label between them lie more than [window_size] rows
    apart.  This holds for every input table, sorted or not, and for every
    integer [window_size]; positions are those of the returned table. *)
Theorem spacing_invariant (self : ModelPredictor) (df : list row)
    (k : Z) (i j : nat) :
  signal_kind k ->
  (i < j)%nat ->
  target_at (filter_predictions self df) i = Some k ->
  target_at (filter_predictions self df) j = Some k ->
  (forall c, (i < c < j)%nat ->
             target_at (filter_predictions self df) c <> Some k) ->
  Z.of_nat j - Z.of_nat i > window_size self.
Proof.
  intros Hk Hij Hi Hj Hbetween.
  apply is_kind_nth in Hi. apply is_kind_nth in Hj.
  assert (Hb : forall c, (i < c < j)%nat ->
             nth c (map (is_kind k) (filter_predictions self df)) false = false)
    by (intros c Hc; apply is_kind_nth_false, Hbetween, Hc).
  rewrite (filter_predictions_kind self df k Hk) in Hi, Hj, Hb.
  apply (accept_mask_next _ _ _ _ i j Hij Hi Hb); [|exact Hj].
  eapply accept_mask_cand, Hj.
Qed.

Lemma spacing_invariant_witness :
  Z.of_nat 2 - Z.of_nat 0 >
  window_size (sample_predictor 1 (1 # 10) (9 # 10)).
Proof.
  apply (spacing_invariant (sample_predictor 1 (1 # 10) (9 # 10))
           (sample_table 0 [0; 0; 0; -1; 1]) MINIMUM 0 2).
  - left; reflexivity.
  - lia.
  - reflexivity.
  - reflexivity.
  - intros c Hc. assert (c = 1%nat) as -> by lia. discriminate.
Defined.

(** C2 (threshold correctness).  With [min_threshold <= max_threshold],
    every row returned by [evaluate_model] is labelled minimum exactly when
    its probability is below [min_threshold], maximum exactly when it is
    above [max_threshold], and neutral exactly when it is neither.  This
    holds for every probability value, inside [0,1] or not. *)
Theorem threshold_correctness (self : ModelPredictor) (df : list bar) (r : row) :
  (min_threshold self <= max_threshold self)%Q ->
  In r (evaluate_model self df) ->
  (predicted_target r = MINIMUM <->
   (predicted_probability r < min_threshold self)%Q) /\
  (predicted_target r = MAXIMUM <->
   (max_threshold self < predicted_probability r)%Q) /\
  (predicted_target r = NEUTRAL <->
   ~ (predicted_probability r < min_threshold self)%Q /\
   ~ (max_threshold self < predicted_probability r)%Q).
Proof.
  intros Hle Hin. rewrite (evaluate_model_label self df r Hin).
  unfold row_label, MINIMUM, MAXIMUM, NEUTRAL.
  set (p := predicted_probability r).
  pose proof (Qlt_bool_iff (max_threshold self) p) as Hmax.
  pose proof (Qlt_bool_iff p (min_threshold self)) as Hmin.
  assert (Hexcl : (p < min_threshold self)%Q ->
                  (max_threshold self < p)%Q -> False).
  { intros H1 H2.
    apply (Qlt_irrefl p).
    apply (Qlt_trans _ (min_threshold self)); [exact H1|].
    apply (Qle_lt_trans _ (max_threshold self)); assumption. }
  destruct (Qlt_bool (max_threshold self) p);
    destruct (Qlt_bool p (min_threshold self));
    repeat split; intros; try lia; try tauto;
    try (apply Hmax; reflexivity); try (apply Hmin; reflexivity);
    try (exfalso; intuition congruence).
Qed.

Lemma threshold_correctness_witness :
  predicted_target (mkRow 3 (7 # 2) [Some (1 # 100)%Q] (1 # 100) 0) = MINIMUM
  <-> (1 # 100 < 1 # 10)%Q.
Proof.
  refine (proj1 (threshold_correctness
                   (sample_predictor 1 (1 # 10) (9 # 10))
                   [mkBar 3 (7 # 2) [Some (1 # 100)%Q]]
                   (mkRow 3 (7 # 2) [Some (1 # 100)%Q] (1 # 100) 0) _ _)).
  - discriminate.
  - left; reflexivity.
Defined.

(** C3 as stated fails: with [window_size = 1] and minima at rows 0, 2
    and 3, row 0 is accepted and row 3 is a later candidate more than
    [window_size] rows after it, yet row 3 is suppressed, because the gap
    is measured from row 2, the latest accepted minimum. *)
Lemma suppression_rule_any_accepted_fails :
  ~ (forall (self : ModelPredictor) (df : list row) (k : Z) (i j : nat),
        date_sorted df ->
        signal_kind k ->
        (i < j)%nat ->
        target_at (filter_predictions self df) i = Some k ->
        target_at df j = Some k ->
        (target_at (filter_predictions self df) j = Some NEUTRAL <->
         Z.of_nat j - Z.of_nat i <= window_size self)).
Proof.
  intros H.
  specialize (H (sample_predictor 1 (1 # 10) (9 # 10))
                (sample_table 0 [0; -1; 0; 0]) MINIMUM 0%nat 3%nat).
  assert (Hs : date_sorted (sample_table 0 [0; -1; 0; 0]))
    by (repeat constructor).
  specialize (H Hs (or_introl eq_refl) ltac:(lia) eq_refl eq_refl).
  destruct H as [H _]. specialize (H eq_refl). cbn in H. lia.
Qed.

(** C3 (amended: the gap is measured from the latest accepted row).  On a
    date-sorted table, let row [i] be accepted with kind [k] and row [j]
    be a later candidate of kind [k].  If [j - i <= window_size] then [j]
    is downgraded to neutral; if [j - i = window_size + 1] then [j] keeps
    its label; and if no row of kind [k] is accepted strictly between [i]
    and [j], then [j] is downgraded exactly when [j - i <= window_size]. *)
Theorem suppression_rule (self : ModelPredictor) (df : list row)
    (k : Z) (i j : nat) :
  date_sorted df ->
  signal_kind k ->
  (i < j)%nat ->
  target_at (filter_predictions self df) i = Some k ->
  target_at df j = Some k ->
  (Z.of_nat j - Z.of_nat i <= window_size self ->
   target_at (filter_predictions self df) j = Some NEUTRAL) /\
  (Z.of_nat j - Z.of_nat i = window_size self + 1 ->
   target_at (filter_predictions self df) j = Some k) /\
  ((forall c, (i < c < j)%nat ->
              target_at (filter_predictions self df) c <> Some k) ->
   (target_at (filter_predictions self df) j = Some NEUTRAL <->
    Z.of_nat j - Z.of_nat i <= window_size self)).
Proof.
  intros Hs Hk Hij Hi Hj.
  pose proof (sort_values_id df (date_sorted_ordered df Hs)) as Hid.
  pose proof (filter_predictions_kind self df k Hk) as Hmask.
  rewrite Hid in Hmask.
  assert (Hraw : target_at (sort_values df) j = Some k) by now rewrite Hid.
  pose proof (signal_not_neutral k Hk) as Hne.
  apply is_kind_nth in Hi. apply is_kind_nth in Hj.
  assert (Hclose : Z.of_nat j - Z.of_nat i <= window_size self ->
                   target_at (filter_predictions self df) j = Some NEUTRAL).
  { intros Hgap. apply (candidate_fate self df k j Hk Hraw).
    rewrite Hmask in *.
    apply (accept_mask_suppress _ _ _ _ i j Hij Hi Hgap). }
  assert (Hiff : (forall c, (i < c < j)%nat ->
                    target_at (filter_predictions self df) c <> Some k) ->
                 (target_at (filter_predictions self df) j = Some NEUTRAL <->
                  Z.of_nat j - Z.of_nat i <= window_size self)).
  { intros Hbetween. split; [|exact Hclose].
    intros Hsup.
    destruct (Z_le_gt_dec (Z.of_nat j - Z.of_nat i) (window_size self))
      as [Hle | Hgt]; [exact Hle | exfalso].
    assert (Hb : forall c, (i < c < j)%nat ->
               nth c (map (is_kind k) (filter_predictions self df)) false
               = false)
      by (intros c Hc; apply is_kind_nth_false, Hbetween, Hc).
    rewrite Hmask in Hi, Hb.
    apply (accept_mask_next _ _ _ _ i j Hij Hi Hb Hj) in Hgt.
    rewrite <- Hmask in Hgt. apply is_kind_nth in Hgt.
    congruence. }
  split; [exact Hclose|]. split; [|exact Hiff].
  intros Hgap.
  assert (Hb : forall c, (i < c < j)%nat ->
             nth c (map (is_kind k) (filter_predictions self df)) false
             = false).
  { intros c Hc. rewrite Hmask in *.
    apply (accept_mask_suppress _ _ _ _ i c); [lia | exact Hi | lia]. }
  apply is_kind_nth. rewrite Hmask in *.
  apply (accept_mask_next _ _ _ _ i j Hij Hi Hb Hj). lia.
Qed.

Lemma suppression_rule_witness :
  target_at
    (filter_predictions (sample_predictor 2 (1 # 10) (9 # 10))
       (sample_table 0 [1; 1; 1; 1; -1])) 3 = Some MAXIMUM /\
  target_at
    (filter_predictions (sample_predictor 2 (1 # 10) (9 # 10))
       (sample_table 0 [1; 1; 1; 1; -1])) 2 = Some NEUTRAL.
Proof.
  split.
  - apply (suppression_rule (sample_predictor 2 (1 # 10) (9 # 10))
             (sample_table 0 [1; 1; 1; 1; -1]) MAXIMUM 0 3).
    + repeat constructor.
    + right; reflexivity.
    + lia.
    + reflexivity.
    + reflexivity.
    + reflexivity.
  - refine (proj1 (suppression_rule (sample_predictor 2 (1 # 10) (9 # 10))
                     (sample_table 0 [1; 1; 1; 1; -1]) MAXIMUM 0 2
                     _ _ _ _ _) _).
    + repeat constructor.
    + right; reflexivity.
    + lia.
    + reflexivity.
    + reflexivity.
    + cbn. lia.
Defined.

(** C4 (first wins).  On a date-sorted table, let row [c0] be a candidate
    of kind [k] that starts a cluster: every row of kind [k] accepted
    before it lies more than [window_size] rows earlier.  Then [c0] keeps
    its label, and every later candidate of kind [k] within [window_size]
    rows of [c0] is downgraded to neutral.  The decisions do not look at
    probabilities: a table with the same dates and labels but any other
    values in the remaining columns gets the same column of final labels. *)
Theorem first_wins (self : ModelPredictor) (df : list row) (k : Z) (c0 : nat) :
  date_sorted df ->
  signal_kind k ->
  target_at df c0 = Some k ->
  (forall i, (i < c0)%nat ->
             target_at (filter_predictions self df) i = Some k ->
             Z.of_nat c0 - Z.of_nat i > window_size self) ->
  target_at (filter_predictions self df) c0 = Some k /\
  (forall j, (c0 < j)%nat ->
             target_at df j = Some k ->
             Z.of_nat j - Z.of_nat c0 <= window_size self ->
             target_at (filter_predictions self df) j = Some NEUTRAL) /\
  (forall df',
      Forall2 (fun r r' => date r = date r' /\
                           predicted_target r = predicted_target r') df df' ->
      map predicted_target (filter_predictions self df') =
      map predicted_target (filter_predictions self df)).
Proof.
  intros Hs Hk Hc0 Hfresh.
  pose proof (sort_values_id df (date_sorted_ordered df Hs)) as Hid.
  pose proof (filter_predictions_kind self df k Hk) as Hmask.
  rewrite Hid in Hmask.
  assert (Hacc : nth c0 (map (is_kind k) (filter_predictions self df)) false
                 = true).
  { apply is_kind_nth in Hc0.
    destruct (latest_marked (map (is_kind k) (filter_predictions self df)) c0)
      as [Hnone | (a & Ha & Hat & Hbetween)].
    - rewrite Hmask in *. apply accept_mask_first; [exact Hc0 | exact Hnone | lia].
    - assert (Hgap := Hfresh a Ha (proj1 (is_kind_nth k _ a) Hat)).
      rewrite Hmask in *.
      apply (accept_mask_next _ _ _ _ a c0 Ha Hat Hbetween Hc0). exact Hgap. }
  split; [apply is_kind_nth, Hacc|]. split.
  - intros j Hj Hcand Hgap.
    apply (candidate_fate self df k j Hk); [now rewrite Hid|].
    rewrite Hmask in *.
    apply (accept_mask_suppress _ _ _ _ c0 j Hj Hacc Hgap).
  - intros df' Hsame. unfold filter_predictions. symmetry.
    apply filter_rows_targets.
    apply (sort_values_Forall2
             (fun r r' => predicted_target r = predicted_target r')).
    exact Hsame.
Qed.

Lemma first_wins_witness :
  target_at
    (filter_predictions (sample_predictor 2 (1 # 10) (9 # 10))
       (sample_table 0 [0; -1; -1; 0; 0; 0])) 3 = Some MINIMUM /\
  target_at
    (filter_predictions (sample_predictor 2 (1 # 10) (9 # 10))
       (sample_table 0 [0; -1; -1; 0; 0; 0])) 5 = Some NEUTRAL.
Proof.
  assert (Hs : date_sorted (sample_table 0 [0; -1; -1; 0; 0; 0]))
    by (repeat constructor).
  assert (Hfresh : forall i, (i < 3)%nat ->
            target_at
              (filter_predictions (sample_predictor 2 (1 # 10) (9 # 10))
                 (sample_table 0 [0; -1; -1; 0; 0; 0])) i = Some MINIMUM ->
            Z.of_nat 3 - Z.of_nat i >
            window_size (sample_predictor 2 (1 # 10) (9 # 10))).
  { intros i Hi Ht.
    assert (i = 0 \/ i = 1 \/ i = 2)%nat as [-> | [-> | ->]] by lia;
      first [discriminate Ht | cbn; lia]. }
  destruct (first_wins (sample_predictor 2 (1 # 10) (9 # 10))
              (sample_table 0 [0; -1; -1; 0; 0; 0]) MINIMUM 3
              Hs (or_introl eq_refl) eq_refl Hfresh) as (H1 & H2 & _).
  split; [exact H1|].
  apply H2; [lia | reflexivity | cbn; lia].
Defined.




(** C6 (kind independence).  Take two input tables with the same dates
    that have the label [k] (minimum, or maximum) at the same rows; all
    other labels and columns may differ, for instance every row of the
    other kind replaced by neutral.  Then at every position the two runs
    agree on whether a row of kind [k] is accepted (keeps the label [k])
    and on whether a candidate of kind [k] is suppressed (was [k] in the
    sorted input and is neutral in the result). *)
Theorem kind_independence (self : ModelPredictor) (df1 df2 : list row)
    (k : Z) (j : nat) :
  signal_kind k ->
  Forall2 (fun r1 r2 => date r1 = date r2 /\ is_kind k r1 = is_kind k r2)
    df1 df2 ->
  (target_at (filter_predictions self df1) j = Some k <->
   target_at (filter_predictions self df2) j = Some k) /\
  (target_at (sort_values df1) j = Some k /\
   target_at (filter_predictions self df1) j = Some NEUTRAL <->
   target_at (sort_values df2) j = Some k /\
   target_at (filter_predictions self df2) j = Some NEUTRAL).
Proof.
  intros Hk Hsame.
  destruct (filter_predictions_kind_congr self df1 df2 k Hk Hsame)
    as [Hraw Hout].
  pose proof (signal_not_neutral k Hk) as Hne.
  assert (Hacc : target_at (filter_predictions self df1) j = Some k <->
                 target_at (filter_predictions self df2) j = Some k)
    by (rewrite <- !is_kind_nth, Hout; reflexivity).
  assert (Hcand : target_at (sort_values df1) j = Some k <->
                  target_at (sort_values df2) j = Some k)
    by (rewrite <- !is_kind_nth, Hraw; reflexivity).
  split; [exact Hacc|].
  split; intros [Hc Hn]; (split; [apply Hcand, Hc|]).
  - apply (candidate_fate self df2 k j Hk); [apply Hcand, Hc|].
    apply is_kind_nth_false. rewrite <- Hacc. congruence.
  - apply (candidate_fate self df1 k j Hk); [apply Hcand, Hc|].
    apply is_kind_nth_false. rewrite Hacc. congruence.
Qed.

Lemma kind_independence_witness :
  target_at
    (filter_predictions (sample_predictor 2 (1 # 10) (9 # 10))
       (sample_table 0 [0; 1; 0; 1; 0])) 2 = Some NEUTRAL /\
  target_at
    (filter_predictions (sample_predictor 2 (1 # 10) (9 # 10))
       (sample_table 0 [0; 1; 0; 1; 0])) 4 = Some MINIMUM.
Proof.
  assert (Hsame :
            Forall2 (fun r1 r2 => date r1 = date r2 /\
                                  is_kind MINIMUM r1 = is_kind MINIMUM r2)
              (sample_table 0 [0; 1; 0; 1; 0])
              (sample_table 0 [0; -1; 0; -1; 0]))
    by (repeat constructor).
  split.
  - apply (proj2 (kind_independence
                    (sample_predictor 2 (1 # 10) (9 # 10))
                    (sample_table 0 [0; 1; 0; 1; 0])
                    (sample_table 0 [0; -1; 0; -1; 0]) MINIMUM 2
                    (or_introl eq_refl) Hsame)).
    split; reflexivity.
  - apply (proj1 (kind_independence
                    (sample_predictor 2 (1 # 10) (9 # 10))
                    (sample_table 0 [0; 1; 0; 1; 0])
                    (sample_table 0 [0; -1; 0; -1; 0]) MINIMUM 4
                    (or_introl eq_refl) Hsame)).
    reflexivity.
Defined.

(** C7 as stated fails: a [params] dictionary with [min_threshold = 0.9]
    above [max_threshold = 0.1] is accepted by [__init__], which returns
    the predictor instead of raising a configuration error. *)
Lemma inverted_thresholds_not_rejected :
  ~ (forall (mdl : list (list Q) -> list Q -> Q) (params : Params),
        (get (p_max_threshold params) (99999 # 100000) <
         get (p_min_threshold params) (1 # 100000))%Q ->
        init mdl params = Raised ConfigurationError).
Proof.
  intros H.
  specialize (H (fun _ x => hd 0%Q x)
                (mkParams None None (Some (9 # 10)%Q) (Some (1 # 10)%Q) None)).
  cbn in H. discriminate H. reflexivity.
Qed.

(** C7 (amended: construction validates nothing).  [__init__] raises for
    no [params] dictionary: it returns a predictor that holds each of
    [outputsize], [min_max_order], [min_threshold], [max_threshold] and
    [window_size] as supplied, or its default (5000, 5, 0.00001, 0.99999,
    5) when the key is absent.  Inverted thresholds, thresholds outside
    [0,1] and non-positive windows are stored like any other value. *)
Theorem construction_never_rejects
    (mdl : list (list Q) -> list Q -> Q) (params : Params) :
  (forall e, init mdl params <> Raised e) /\
  exists self,
    init mdl params = Returned self /\
    model self = mdl /\
    outputsize self = get (p_outputsize params) 5000 /\
    min_max_order self = get (p_min_max_order params) 5 /\
    min_threshold self = get (p_min_threshold params) (1 # 100000)%Q /\
    max_threshold self = get (p_max_threshold params) (99999 # 100000)%Q /\
    window_size self = get (p_window_size params) 5.
Proof.
  split; [intros e; discriminate|].
  eexists. split; [reflexivity|]. cbn. repeat split.
Qed.

(** C8 (sentinel).  On a date-sorted table the first row of each signal
    kind keeps its label, at whatever position it stands and for every
    integer [window_size]: the running indices start at
    [-window_size - 1], so the first gap is [j + window_size + 1]. *)
Theorem first_candidate_accepted (self : ModelPredictor) (df : list row)
    (k : Z) (j : nat) :
  date_sorted df ->
  signal_kind k ->
  target_at df j = Some k ->
  (forall c, (c < j)%nat -> target_at df c <> Some k) ->
  target_at (filter_predictions self df) j = Some k.
Proof.
  intros Hs Hk Hj Hfirst.
  apply is_kind_nth. rewrite (filter_predictions_kind self df k Hk).
  rewrite (sort_values_id df (date_sorted_ordered df Hs)).
  apply is_kind_nth in Hj.
  apply accept_mask_first; [exact Hj | | lia].
  intros c Hc.
  destruct (nth c (accept_mask _ _ _ _) false) eqn:E; [|reflexivity].
  apply accept_mask_cand in E. apply is_kind_nth in E.
  now apply Hfirst in E.
Qed.

Lemma first_candidate_accepted_witness :
  target_at
    (filter_predictions (sample_predictor 5 (1 # 10) (9 # 10))
       (sample_table 0 [-1; 1; 0; 0])) 2 = Some MINIMUM.
Proof.
  apply first_candidate_accepted.
  - repeat constructor.
  - left; reflexivity.
  - reflexivity.
  - intros c Hc.
    assert (c = 0%nat \/ c = 1%nat) as [-> | ->] by lia; discriminate.
Defined.

(** C9 (frame condition).  On a date-sorted table [filter_predictions]
    returns the same rows in the same order: row by row, [date], [close],
    the indicator values and [predicted_probability] are unchanged, and
    [predicted_target] is either unchanged or was minimum or maximum and is
    now neutral. *)
Theorem frame_condition (self : ModelPredictor) (df : list row) :
  date_sorted df ->
  Forall2 downgraded df (filter_predictions self df).
Proof.
  intros Hs. rewrite (filter_predictions_sorted self df Hs).
  apply filter_rows_downgraded.
Qed.

Lemma frame_condition_witness :
  Forall2 downgraded
    (sample_table 0 [0; 0; -1; 1; 1])
    (filter_predictions (sample_predictor 1 (1 # 10) (9 # 10))
       (sample_table 0 [0; 0; -1; 1; 1])).
Proof.
  apply frame_condition. repeat constructor.
Defined.

(** C10 (labelling is total; the maximum write wins).  For every pair of
    thresholds, ordered or inverted, lines 42-45 give each probability
    exactly one label, one of neutral, minimum and maximum; and a
    probability that is both below [min_threshold] and above
    [max_threshold], which needs [min_threshold > max_threshold], is
    labelled maximum, because [1] is written after [0]. *)
Theorem labelling_total_maximum_wins (min_thr max_thr : Q) (y_pred_proba : list Q) :
  length (predict_labels min_thr max_thr y_pred_proba) = length y_pred_proba /\
  forall (i : nat) (p : Q),
    nth_error y_pred_proba i = Some p ->
    exists l,
      nth_error (predict_labels min_thr max_thr y_pred_proba) i = Some l /\
      (l = NEUTRAL \/ l = MINIMUM \/ l = MAXIMUM) /\
      ((p < min_thr)%Q -> (max_thr < p)%Q -> l = MAXIMUM).
Proof.
  rewrite predict_labels_map. split; [apply length_map|].
  intros i p Hi. exists (row_label min_thr max_thr p).
  split; [now rewrite nth_error_map, Hi|].
  unfold row_label, NEUTRAL, MINIMUM, MAXIMUM.
  pose proof (Qlt_bool_iff max_thr p) as Hmax.
  destruct (Qlt_bool max_thr p); [auto|].
  split; [destruct (Qlt_bool p min_thr); auto|].
  intros _ H. apply Hmax in H. discriminate.
Qed.

Lemma labelling_total_maximum_wins_witness :
  exists l,
    nth_error
      (predict_labels (9 # 10) (1 # 10) [(1 # 20)%Q; (1 # 2)%Q; (19 # 20)%Q])
      1 = Some l /\
    l = MAXIMUM.
Proof.
  destruct (proj2 (labelling_total_maximum_wins (9 # 10) (1 # 10)
                     [(1 # 20)%Q; (1 # 2)%Q; (19 # 20)%Q])
              1%nat (1 # 2)%Q eq_refl) as (l & Hl & _ & Hmax).
  exists l. split; [exact Hl | apply Hmax; reflexivity].
Defined.

(** * Further properties of the code *)

(** ** How many signals survive the filter *)

Lemma count_true_cons (b : bool) (m : list bool) :
  count_true (b :: m) = ((if b then 1 else 0) + count_true m)%nat.
Proof. unfold count_true. destruct b; reflexivity. Qed.

Lemma length_filter_count_true {A : Type} (f : A -> bool) (l : list A) :
  length (filter f l) = count_true (map f l).
Proof.
  induction l as [|x l IH]; [reflexivity|].
  cbn [filter map]. rewrite count_true_cons.
  destruct (f x); cbn [length]; lia.
Qed.

(** Each accepted row blocks the next [w] rows, and [last] blocks the rows
    up to [last + w]. *)
Lemma accept_mask_density w cand :
  0 <= w ->
  forall idx last,
    (w + 1) * Z.of_nat (count_true (accept_mask w idx last cand)) <=
    Z.max 0 (Z.of_nat (length cand) - Z.max 0 (last + w - idx + 1) + w).
Proof.
  intros Hw. induction cand as [|c rest IH]; intros idx last.
  - cbn. lia.
  - cbn [accept_mask length]. mask_head; rewrite count_true_cons.
    + specialize (IH (idx + 1) idx). nia.
    + specialize (IH (idx + 1) last). nia.
    + specialize (IH (idx + 1) last). nia.
Qed.

(** X1.  With a window [w >= 0], a table of [n] rows comes back with at
    most [(n + w) / (w + 1)] minima and as many maxima to draw: each kept
    signal takes up [w + 1] rows of its own. *)
Theorem signal_density_bound (self : ModelPredictor) (df : list row) :
  0 <= window_size self ->
  (window_size self + 1) *
    Z.of_nat (length (minima_points (filter_predictions self df))) <=
  Z.of_nat (length df) + window_size self /\
  (window_size self + 1) *
    Z.of_nat (length (maxima_points (filter_predictions self df))) <=
  Z.of_nat (length df) + window_size self.
Proof.
  intros Hw. unfold minima_points, maxima_points.
  rewrite !length_filter_count_true.
  change (fun r : row => predicted_target r =? 0) with (is_kind MINIMUM).
  change (fun r : row => predicted_target r =? 1) with (is_kind MAXIMUM).
  rewrite (filter_predictions_kind self df MINIMUM (or_introl eq_refl)).
  rewrite (filter_predictions_kind self df MAXIMUM (or_intror eq_refl)).
  split.
  - pose proof (accept_mask_density (window_size self)
                  (map (is_kind MINIMUM) (sort_values df)) Hw 0
                  (- window_size self - 1)) as H.
    rewrite length_map, sort_values_length in H. lia.
  - pose proof (accept_mask_density (window_size self)
                  (map (is_kind MAXIMUM) (sort_values df)) Hw 0
                  (- window_size self - 1)) as H.
    rewrite length_map, sort_values_length in H. lia.
Qed.

Lemma signal_density_bound_witness :
  (2 + 1) *
    Z.of_nat
      (length
         (minima_points
            (filter_predictions (sample_predictor 2 (1 # 10) (9 # 10))
               (sample_table 0 [0; 0; 0; 0; 0; 0; 0])))) <=
  Z.of_nat 7 + 2.
Proof.
  refine (proj1 (signal_density_bound
                   (sample_predictor 2 (1 # 10) (9 # 10))
                   (sample_table 0 [0; 0; 0; 0; 0; 0; 0]) _)).
  cbn. lia.
Defined.

(** ** The filter on tables in any order *)

(** X2.  Whatever the order of the input rows, [filter_predictions]
    returns a rearrangement of them in non-decreasing date order in which
    a row is either untouched or had its signal label replaced by neutral:
    no row is lost, added or otherwise modified. *)
Theorem filter_predictions_rows (self : ModelPredictor) (df : list row) :
  date_ordered (filter_predictions self df) /\
  exists df',
    Permutation df df' /\
    Forall2 downgraded df' (filter_predictions self df).
Proof.
  split.
  - unfold filter_predictions. apply filter_rows_ordered, sort_values_ordered.
  - exists (sort_values df). split; [apply sort_values_perm|].
    unfold filter_predictions. apply filter_rows_downgraded.
Qed.

(** ** Windows at the extremes *)

Lemma filter_rows_nonpositive w rows :
  w <= 0 ->
  forall idx st,
    idx - last_minima_idx st > w ->
    idx - last_maxima_idx st > w ->
    filter_rows w idx st rows = rows.
Proof.
  intros Hw. induction rows as [|r rest IH]; intros idx st Hm HM;
    [reflexivity|].
  cbn [filter_rows]. unfold filter_step.
  pose proof (Zgt_cases (idx - last_minima_idx st) w) as Gm.
  pose proof (Zgt_cases (idx - last_maxima_idx st) w) as GM.
  destruct (predicted_target r =? 0);
    [destruct (idx - last_minima_idx st >? w); [|lia]
    |destruct (predicted_target r =? 1);
     [destruct (idx - last_maxima_idx st >? w); [|lia]|]];
    cbn [fst snd]; f_equal; apply IH; cbn; lia.
Qed.

(** X3.  With [window_size <= 0] the filter suppresses nothing: the
    result is the input table sorted by date, every label as it was. *)
Theorem nonpositive_window_keeps_all (self : ModelPredictor) (df : list row) :
  window_size self <= 0 ->
  filter_predictions self df = sort_values df.
Proof.
  intros Hw. unfold filter_predictions.
  apply filter_rows_nonpositive; cbn; lia.
Qed.

Lemma nonpositive_window_keeps_all_witness :
  filter_predictions (sample_predictor (-3) (1 # 10) (9 # 10))
    (sample_table 0 [0; 0; 1; 1; 0]) =
  sort_values (sample_table 0 [0; 0; 1; 1; 0]).
Proof.
  apply nonpositive_window_keeps_all. cbn. lia.
Defined.

(** X4.  The filter suppresses a candidate only for a reason: a row that
    was a minimum (or maximum) in the sorted input and is neutral in the
    result has an accepted row of the same kind at most [window_size] rows
    before it. *)
Theorem suppressed_has_close_accepted (self : ModelPredictor) (df : list row)
    (k : Z) (j : nat) :
  signal_kind k ->
  target_at (sort_values df) j = Some k ->
  target_at (filter_predictions self df) j = Some NEUTRAL ->
  exists i,
    (i < j)%nat /\
    target_at (filter_predictions self df) i = Some k /\
    Z.of_nat j - Z.of_nat i <= window_size self.
Proof.
  intros Hk Hj Hsup.
  pose proof (signal_not_neutral k Hk) as Hne.
  pose proof (filter_predictions_kind self df k Hk) as Hmask.
  apply is_kind_nth in Hj.
  assert (Hrej : nth j (map (is_kind k) (filter_predictions self df)) false
                 = false)
    by (apply is_kind_nth_false; congruence).
  destruct (latest_marked (map (is_kind k) (filter_predictions self df)) j)
    as [Hnone | (a & Ha & Hat & Hbetween)].
  - exfalso. rewrite Hmask in Hrej, Hnone.
    assert (Hacc : nth j (accept_mask (window_size self) 0
                            (- window_size self - 1)
                            (map (is_kind k) (sort_values df))) false = true)
      by (apply accept_mask_first; [exact Hj | exact Hnone | lia]).
    congruence.
  - exists a. split; [exact Ha|]. split; [apply is_kind_nth, Hat|].
    destruct (Z_le_gt_dec (Z.of_nat j - Z.of_nat a) (window_size self))
      as [Hle | Hgt]; [exact Hle | exfalso].
    rewrite Hmask in Hrej, Hat, Hbetween.
    apply (accept_mask_next _ _ _ _ a j Ha Hat Hbetween Hj) in Hgt.
    congruence.
Qed.

Lemma suppressed_has_close_accepted_witness :
  exists i,
    (i < 4)%nat /\
    target_at
      (filter_predictions (sample_predictor 2 (1 # 10) (9 # 10))
         (sample_table 0 [0; 1; -1; 0; 0])) i = Some MINIMUM /\
    Z.of_nat 4 - Z.of_nat i <=
    window_size (sample_predictor 2 (1 # 10) (9 # 10)).
Proof.
  apply suppressed_has_close_accepted.
  - left; reflexivity.
  - reflexivity.
  - reflexivity.
Defined.

(** A marked position has a first marked position at or before it. *)
Lemma first_marked (m : list bool) (c : nat) :
  nth c m false = true ->
  exists f, (f <= c)%nat /\ nth f m false = true /\
            forall c', (c' < f)%nat -> nth c' m false = false.
Proof.
  induction c as [c IHc] using lt_wf_ind. intros Hc.
  destruct (latest_marked m c) as [Hnone | (a & Ha & Hat & _)].
  - exists c. split; [lia|]. split; assumption.
  - destruct (IHc a Ha Hat) as (f & Hf & Hft & Hfirst).
    exists f. split; [lia|]. split; assumption.
Qed.

(** X5.  When the window covers the whole table
    ([window_size + 1 >= number of rows]), exactly one row of each kind
    keeps its label: the first row of that kind in date order. *)
Theorem covering_window_keeps_first (self : ModelPredictor) (df : list row)
    (k : Z) (j : nat) :
  signal_kind k ->
  Z.of_nat (length df) <= window_size self + 1 ->
  (target_at (filter_predictions self df) j = Some k <->
   target_at (sort_values df) j = Some k /\
   forall c, (c < j)%nat -> target_at (sort_values df) c <> Some k).
Proof.
  intros Hk Hlen.
  pose proof (filter_predictions_kind self df k Hk) as Hmask.
  assert (Hfirst : forall b,
            nth b (map (is_kind k) (sort_values df)) false = true ->
            (forall c, (c < b)%nat ->
                       nth c (map (is_kind k) (sort_values df)) false = false) ->
            nth b (map (is_kind k) (filter_predictions self df)) false = true).
  { intros b Hb Hnone. rewrite Hmask.
    apply accept_mask_first; [exact Hb | | lia].
    intros c Hc.
    destruct (nth c (accept_mask _ _ _ _) false) eqn:E; [|reflexivity].
    apply accept_mask_cand in E. rewrite (Hnone c Hc) in E. discriminate. }
  split.
  - intros Hacc. apply is_kind_nth in Hacc.
    assert (Hcand : nth j (map (is_kind k) (sort_values df)) false = true)
      by (rewrite Hmask in Hacc; eapply accept_mask_cand, Hacc).
    split; [apply is_kind_nth, Hcand|].
    assert (Hjlen : (j < length df)%nat).
    { destruct (Nat.lt_ge_cases j (length df)) as [H | H]; [exact H|].
      rewrite nth_overflow in Hcand; [discriminate|].
      now rewrite length_map, sort_values_length. }
    intros c Hc Hck. apply is_kind_nth in Hck.
    destruct (first_marked _ c Hck) as (f & Hf & Hft & Hnone).
    pose proof (Hfirst f Hft Hnone) as Hfacc.
    rewrite Hmask in Hacc, Hfacc.
    assert (Hgap : Z.of_nat j - Z.of_nat f <= window_size self) by lia.
    pose proof (accept_mask_suppress _ _ _ _ f j ltac:(lia) Hfacc Hgap).
    congruence.
  - intros [Hcand Hnone]. apply is_kind_nth. apply Hfirst.
    + apply is_kind_nth, Hcand.
    + intros c Hc. apply is_kind_nth_false, Hnone, Hc.
Qed.

Lemma covering_window_keeps_first_witness :
  target_at
    (filter_predictions (sample_predictor 5 (1 # 10) (9 # 10))
       (sample_table 0 [-1; 1; 0; 1; 0; 0])) 2 = Some MINIMUM.
Proof.
  apply (covering_window_keeps_first
           (sample_predictor 5 (1 # 10) (9 # 10))
           (sample_table 0 [-1; 1; 0; 1; 0; 0]) MINIMUM 2).
  - left; reflexivity.
  - cbn. lia.
  - split; [reflexivity|].
    intros c Hc.
    assert (c = 0%nat \/ c = 1%nat) as [-> | ->] by lia; discriminate.
Defined.

(** ** Attaching the prediction columns *)

(** The two [combine]s of [evaluate_model] read as one pass over the kept
    rows. *)
Lemma attach_columns_map (f : list Q -> Q) (lab : Q -> Z) (l : list bar) :
  map (fun bpt : bar * (Q * Z) =>
         mkRow (bar_date (fst bpt)) (bar_close (fst bpt))
           (bar_indicators (fst bpt)) (fst (snd bpt)) (snd (snd bpt)))
    (combine l (combine (map f (map features l))
                  (map lab (map f (map features l))))) =
  map (fun b => mkRow (bar_date b) (bar_close b) (bar_indicators b)
                  (f (features b)) (lab (f (features b)))) l.
Proof.
  induction l as [|b l IH]; [reflexivity|].
  cbn [map combine fst snd]. now rewrite IH.
Qed.

(** ** The two stages together *)

Lemma Forall2_In_r {A B : Type} (R : A -> B -> Prop) l l' b :
  Forall2 R l l' -> In b l' -> exists a, In a l /\ R a b.
Proof.
  induction 1 as [|x y l l' Hxy Hl IH]; cbn; [tauto|].
  intros [<- | Hb]; [eauto|].
  destruct (IH Hb) as (a & Ha & HR). eauto.
Qed.

(** Every returned row stems from an input row. *)
Lemma filter_predictions_origin (self : ModelPredictor) (df : list row)
    (r : row) :
  In r (filter_predictions self df) ->
  exists r0, In r0 df /\ downgraded r0 r.
Proof.
  intros Hr.
  destruct (Forall2_In_r _ _ _ r
              (filter_rows_downgraded (window_size self) (sort_values df) 0
                 (mkState (- window_size self - 1) (- window_size self - 1)))
              Hr) as (r0 & Hr0 & Hd).
  exists r0. split; [|exact Hd].
  eapply Permutation_in; [symmetry; apply sort_values_perm | exact Hr0].
Qed.

(** X7.  In the table one symbol ends up with ([evaluate_model], then
    [filter_predictions]), every label is neutral, minimum or maximum, a
    row labelled minimum has its probability below [min_threshold], and a
    row labelled maximum has its probability above [max_threshold].  This
    needs no assumption on the thresholds or the window. *)
Theorem pipeline_signals_respect_thresholds (self : ModelPredictor)
    (df : list bar) (r : row) :
  In r (predict_symbol self df) ->
  (predicted_target r = NEUTRAL \/ predicted_target r = MINIMUM \/
   predicted_target r = MAXIMUM) /\
  (predicted_target r = MINIMUM ->
   (predicted_probability r < min_threshold self)%Q) /\
  (predicted_target r = MAXIMUM ->
   (max_threshold self < predicted_probability r)%Q).
Proof.
  unfold predict_symbol. intros Hr.
  destruct (filter_predictions_origin self _ r Hr)
    as (r0 & Hr0 & (_ & _ & _ & Hp) & Ht).
  pose proof (evaluate_model_label self df r0 Hr0) as Hlab.
  rewrite Hp. unfold row_label, NEUTRAL, MINIMUM, MAXIMUM in *.
  pose proof (Qlt_bool_iff (max_threshold self) (predicted_probability r0))
    as Hmax.
  pose proof (Qlt_bool_iff (predicted_probability r0) (min_threshold self))
    as Hmin.
  destruct (Qlt_bool (max_threshold self) (predicted_probability r0));
    destruct (Qlt_bool (predicted_probability r0) (min_threshold self));
    repeat split; intros;
    try (apply Hmax; reflexivity); try (apply Hmin; reflexivity); lia.
Qed.

Lemma pipeline_signals_respect_thresholds_witness :
  (1 # 100000 < 1 # 10)%Q.
Proof.
  refine (proj1 (proj2 (pipeline_signals_respect_thresholds
                   (sample_predictor 1 (1 # 10) (9 # 10))
                   [mkBar 0 10 [Some (1 # 100000)%Q];
                    mkBar 1 11 [Some (1 # 20)%Q]]
                   (mkRow 0 10 [Some (1 # 100000)%Q] (1 # 100000) 0) _)) _).
  - left. reflexivity.
  - reflexivity.
Defined.

(** ** The points drawn *)

Lemma filter_step_kept w idx st r :
  snd (filter_step w idx st r) = r \/
  predicted_target (snd (filter_step w idx st r)) = NEUTRAL.
Proof.
  unfold filter_step.
  repeat match goal with |- context [if ?c then _ else _] => destruct c end;
    cbn; auto.
Qed.

Lemma filter_rows_kept w rows :
  forall idx st,
    Forall2 (fun a b => b = a \/ predicted_target b = NEUTRAL)
      rows (filter_rows w idx st rows).
Proof.
  induction rows as [|r rest IH]; intros idx st; cbn [filter_rows];
    constructor; [apply filter_step_kept | apply IH].
Qed.

(** X8.  Every predicted minimum and every predicted maximum drawn after
    the filter is a row of the input table, unaltered, that carried that
    label already: the filter only removes points from the two scatter
    series, it never adds or moves one. *)
Theorem drawn_points_are_input_rows (self : ModelPredictor) (df : list row)
    (r : row) :
  (In r (minima_points (filter_predictions self df)) ->
   In r (minima_points df)) /\
  (In r (maxima_points (filter_predictions self df)) ->
   In r (maxima_points df)).
Proof.
  assert (H : forall r', In r' (filter_predictions self df) ->
                         predicted_target r' <> NEUTRAL -> In r' df).
  { intros r' Hr' Hne.
    destruct (Forall2_In_r _ _ _ r'
                (filter_rows_kept (window_size self) (sort_values df) 0
                   (mkState (- window_size self - 1)
                      (- window_size self - 1))) Hr')
      as (r0 & Hr0 & [-> | Hn]); [|contradiction].
    eapply Permutation_in; [symmetry; apply sort_values_perm | exact Hr0]. }
  unfold minima_points, maxima_points, NEUTRAL in *.
  split; intros Hin; apply filter_In in Hin as [Hin Ht];
    apply filter_In; (split; [|exact Ht]); apply H; auto;
    apply Z.eqb_eq in Ht; lia.
Qed.

Lemma drawn_points_are_input_rows_witness :
  In (mkRow 3 1 [] (1 # 2) 1)
    (maxima_points (sample_table 0 [0; 1; 1; 1; 0])).
Proof.
  refine (proj2 (drawn_points_are_input_rows
                   (sample_predictor 1 (1 # 10) (9 # 10))
                   (sample_table 0 [0; 1; 1; 1; 0])
                   (mkRow 3 1 [] (1 # 2) 1)) _).
  cbn. right. left. reflexivity.
Defined.

(** ** [test] *)





(** ** The order of the input rows *)

(** X10.  For a table in which no date occurs twice the order of the input
    rows does not matter: any rearrangement of the rows gives the same
    result. *)
Theorem input_order_irrelevant (self : ModelPredictor) (df1 df2 : list row) :
  NoDup (map date df1) ->
  Permutation df1 df2 ->
  filter_predictions self df1 = filter_predictions self df2.
Proof.
  intros Hnd Hp. unfold filter_predictions. f_equal.
  apply date_ordered_perm_eq.
  - apply sort_values_ordered.
  - apply sort_values_ordered.
  - rewrite <- (sort_values_perm df1), <- (sort_values_perm df2). exact Hp.
  - eapply Permutation_NoDup; [|exact Hnd].
    apply Permutation_map, sort_values_perm.
Qed.

Lemma input_order_irrelevant_witness :
  filter_predictions (sample_predictor 1 (1 # 10) (9 # 10))
    [mkRow 2 1 [] (1 # 2) 0; mkRow 0 1 [] (1 # 2) 0; mkRow 1 1 [] (1 # 2) 0] =
  filter_predictions (sample_predictor 1 (1 # 10) (9 # 10))
    [mkRow 0 1 [] (1 # 2) 0; mkRow 1 1 [] (1 # 2) 0; mkRow 2 1 [] (1 # 2) 0].
Proof.
  apply input_order_irrelevant.
  - repeat constructor; cbn; intuition discriminate.
  - apply Permutation_cons_app with (l1 := [_; _]) (l2 := []).
    reflexivity.
Defined.

(** ** [StockPredictionModel] *)

Lemma Qle_bool_false_iff (x y : Q) : Qle_bool x y = false <-> (y < x)%Q.
Proof.
  rewrite <- Qlt_bool_iff. unfold Qlt_bool.
  destruct (Qle_bool x y); cbn; split; congruence.
Qed.

Lemma spm_evaluate_model_map (mdl : list Q -> Q) (threshold : Q)
    (df : list bar) :
  StockPredictionModel.evaluate_model mdl threshold df =
  map (fun b =>
         mkRow (bar_date b) (bar_close b) (bar_indicators b)
           (mdl (features b))
           (if Qle_bool threshold (mdl (features b)) then 1 else 0))
    (dropna df).
Proof.
  unfold StockPredictionModel.evaluate_model,
    StockPredictionModel.threshold_labels.
  apply (attach_columns_map mdl
           (fun p => if Qle_bool threshold p then 1 else 0)).
Qed.

(** X11.  [StockPredictionModel.evaluate_model] gives every returned row
    one of two labels: [1] exactly when its probability reaches the
    threshold, [0] exactly when it stays below.  There is no neutral
    label. *)
Theorem spm_threshold_labels (mdl : list Q -> Q) (threshold : Q)
    (df : list bar) (r : row) :
  In r (StockPredictionModel.evaluate_model mdl threshold df) ->
  (predicted_target r = 1 <-> (threshold <= predicted_probability r)%Q) /\
  (predicted_target r = 0 <-> (predicted_probability r < threshold)%Q) /\
  (predicted_target r = 0 \/ predicted_target r = 1).
Proof.
  rewrite spm_evaluate_model_map. intros Hr.
  apply in_map_iff in Hr. destruct Hr as (b & <- & _).
  cbn [predicted_target predicted_probability].
  pose proof (Qle_bool_iff threshold (mdl (features b))) as Hle.
  pose proof (Qle_bool_false_iff threshold (mdl (features b))) as Hlt.
  destruct (Qle_bool threshold (mdl (features b))).
  - repeat split; intros; try lia; try (apply Hle; reflexivity); auto.
    apply Hlt in H. discriminate.
  - repeat split; intros; try lia; try (apply Hlt; reflexivity); auto.
    apply Hle in H. discriminate.
Qed.

Lemma spm_threshold_labels_witness :
  predicted_target (mkRow 0 10 [Some (1 # 1000)%Q] (1 # 1000) 1) = 1 <->
  (1 # 1000 <= 1 # 1000)%Q.
Proof.
  refine (proj1 (spm_threshold_labels (fun x => hd 0%Q x) (1 # 1000)
                   [mkBar 0 10 [Some (1 # 1000)%Q]]
                   (mkRow 0 10 [Some (1 # 1000)%Q] (1 # 1000) 1) _)).
  left. reflexivity.
Defined.

(** X12.  The two classes agree on minima: for the same probabilities, a
    position is labelled [0] by [StockPredictionModel] with threshold [t]
    exactly when [ModelPredictor] with [min_threshold = t] labels it
    minimum, provided [t <= max_threshold]. *)
Theorem minima_agree_between_classes (t max_thr : Q) (y_pred_proba : list Q)
    (i : nat) :
  (t <= max_thr)%Q ->
  (nth_error (StockPredictionModel.threshold_labels t y_pred_proba) i
   = Some 0 <->
   nth_error (predict_labels t max_thr y_pred_proba) i = Some MINIMUM).
Proof.
  intros Hle. rewrite predict_labels_map.
  unfold StockPredictionModel.threshold_labels, MINIMUM.
  rewrite !nth_error_map.
  destruct (nth_error y_pred_proba i) as [p|]; cbn [option_map];
    [|split; discriminate].
  unfold row_label.
  pose proof (Qle_bool_iff t p) as H1.
  pose proof (Qlt_bool_iff max_thr p) as H2.
  pose proof (Qlt_bool_iff p t) as H3.
  pose proof (Qle_bool_false_iff t p) as H4.
  destruct (Qle_bool t p) eqn:E1; destruct (Qlt_bool max_thr p) eqn:E2;
    destruct (Qlt_bool p t) eqn:E3; split; intros H;
    try discriminate; try reflexivity; exfalso.
  - apply (Qlt_irrefl p). apply (Qlt_le_trans _ t); [now apply H3|].
    now apply H1.
  - assert (Hpt : (p < t)%Q) by now apply H4.
    assert (Hmp : (max_thr < p)%Q) by now apply H2.
    apply (Qlt_irrefl p). apply (Qlt_trans _ t); [exact Hpt|].
    apply (Qle_lt_trans _ max_thr); assumption.
  - assert (Hpt : (p < t)%Q) by now apply H4.
    apply H3 in Hpt. discriminate.
  - assert (Hpt : (p < t)%Q) by now apply H4.
    apply H3 in Hpt. discriminate.
Qed.

Lemma minima_agree_between_classes_witness :
  nth_error
    (StockPredictionModel.threshold_labels (1 # 1000)
       [(1 # 2)%Q; (1 # 10000)%Q]) 1 = Some 0 <->
  nth_error
    (predict_labels (1 # 1000) (9 # 10) [(1 # 2)%Q; (1 # 10000)%Q]) 1
  = Some MINIMUM.
Proof.
  apply minima_agree_between_classes. discriminate.
Defined.

Lemma prepare_training_data_map (df : list StockPredictionModel.stock_row) :
  StockPredictionModel.prepare_training_data df =
  map (fun r =>
         (StockPredictionModel.sr_indicators r,
          if StockPredictionModel.positive (StockPredictionModel.loc_max r)
          then 1 else 0))
    (filter (fun r =>
               (StockPredictionModel.positive (StockPredictionModel.loc_min r)
                || StockPredictionModel.positive
                     (StockPredictionModel.loc_max r))
               && forallb is_some (StockPredictionModel.sr_indicators r))
       df).
Proof.
  unfold StockPredictionModel.prepare_training_data.
  induction df as [|r df IH]; [reflexivity|].
  cbn [filter].
  destruct (StockPredictionModel.positive (StockPredictionModel.loc_min r)
            || StockPredictionModel.positive (StockPredictionModel.loc_max r));
    cbn [andb map combine filter fst]; [|exact IH].
  destruct (forallb is_some (StockPredictionModel.sr_indicators r));
    cbn [map]; now rewrite IH.
Qed.

(** X13.  [prepare_training_data] returns an example (indicator values,
    target) exactly for the rows that are marked as a turning point and
    have no missing indicator value.  The target is [1] when [loc_max] is
    positive, also for a row marked as both, and [0] when only [loc_min]
    is positive; a missing [loc_min] or [loc_max] counts as not marked. *)
Theorem prepare_training_data_examples
    (df : list StockPredictionModel.stock_row) (x : list (option Q)) (t : Z) :
  In (x, t) (StockPredictionModel.prepare_training_data df) <->
  exists r,
    In r df /\
    x = StockPredictionModel.sr_indicators r /\
    forallb is_some x = true /\
    ((t = 1 /\
      StockPredictionModel.positive (StockPredictionModel.loc_max r) = true)
     \/
     (t = 0 /\
      StockPredictionModel.positive (StockPredictionModel.loc_min r) = true /\
      StockPredictionModel.positive (StockPredictionModel.loc_max r) = false)).
Proof.
  rewrite prepare_training_data_map, in_map_iff. split.
  - intros (r & Heq & Hin). apply filter_In in Hin as [Hin Hc].
    apply andb_prop in Hc as [Hmark Hcomplete].
    injection Heq as <- <-.
    exists r. repeat split; auto.
    destruct (StockPredictionModel.positive (StockPredictionModel.loc_max r));
      [left; auto|].
    right. rewrite orb_false_r in Hmark. auto.
  - intros (r & Hin & -> & Hcomplete & Ht).
    exists r. split.
    + destruct Ht as [[-> ->] | (-> & _ & ->)]; reflexivity.
    + apply filter_In. split; [exact Hin|].
      rewrite Hcomplete, andb_true_r.
      destruct Ht as [[_ ->] | (_ & -> & _)];
        [apply orb_true_r | reflexivity].
Qed.

Lemma gather_stock_data_fold {symbol A : Type}
    (get_indicators : symbol -> list A) (stock_symbols : list symbol) :
  forall combined_df,
    fold_left
      (fun combined s => combined ++ map (pair s) (get_indicators s))
      stock_symbols combined_df =
    combined_df ++
    flat_map (fun s => map (pair s) (get_indicators s)) stock_symbols.
Proof.
  induction stock_symbols as [|s l IH]; intros combined_df; cbn.
  - now rewrite app_nil_r.
  - rewrite IH. now rewrite <- app_assoc.
Qed.

(** X14.  [gather_stock_data] holds a row tagged with symbol [s] exactly
    when [s] is one of the requested symbols and the row belongs to the
    table fetched for [s]; gathering two lists of symbols one after the
    other gives the two gathered tables one after the other. *)
Theorem gather_stock_data_rows {symbol A : Type}
    (get_indicators : symbol -> list A) (l1 l2 : list symbol)
    (s : symbol) (a : A) :
  (In (s, a) (StockPredictionModel.gather_stock_data get_indicators l1) <->
   In s l1 /\ In a (get_indicators s)) /\
  StockPredictionModel.gather_stock_data get_indicators (l1 ++ l2) =
  StockPredictionModel.gather_stock_data get_indicators l1 ++
  StockPredictionModel.gather_stock_data get_indicators l2.
Proof.
  unfold StockPredictionModel.gather_stock_data.
  rewrite !gather_stock_data_fold. cbn [app]. split.
  - rewrite in_flat_map. split.
    + intros (s' & Hs' & Hin). apply in_map_iff in Hin.
      destruct Hin as (a' & Heq & Ha'). injection Heq as -> ->. auto.
    + intros [Hs Ha]. exists s. split; [exact Hs|]. now apply in_map.
  - apply flat_map_app.
Qed.

(** ** Tables the filter leaves alone *)

(** When consecutive candidates are more than [w] apart, all of them are
    accepted. *)
Lemma accept_mask_spaced w cand :
  (forall a b, (a < b)%nat ->
     nth a cand false = true -> nth b cand false = true ->
     (forall c, (a < c < b)%nat -> nth c cand false = false) ->
     Z.of_nat b - Z.of_nat a > w) ->
  forall j, nth j cand false = true ->
            nth j (accept_mask w 0 (- w - 1) cand) false = true.
Proof.
  intros Hsp j. induction j as [j IHj] using lt_wf_ind. intros Hj.
  destruct (latest_marked (accept_mask w 0 (- w - 1) cand) j)
    as [Hnone | (a & Ha & Hat & Hbetween)].
  - apply accept_mask_first; [exact Hj | exact Hnone | lia].
  - apply (accept_mask_next _ _ _ _ a j Ha Hat Hbetween Hj).
    apply Hsp; [exact Ha | eapply accept_mask_cand, Hat | exact Hj |].
    intros c Hc.
    destruct (nth c cand false) eqn:Ec; [|reflexivity].
    pose proof (IHj c ltac:(lia) Ec) as Hacc.
    rewrite (Hbetween c Hc) in Hacc. discriminate.
Qed.

(** A step that keeps both marks of a row keeps the row. *)
Lemma filter_step_fixed w idx st r :
  is_kind MINIMUM (snd (filter_step w idx st r)) = is_kind MINIMUM r ->
  is_kind MAXIMUM (snd (filter_step w idx st r)) = is_kind MAXIMUM r ->
  snd (filter_step w idx st r) = r.
Proof.
  unfold filter_step, is_kind, MINIMUM, MAXIMUM.
  destruct (predicted_target r =? 0) eqn:E0;
    [|destruct (predicted_target r =? 1) eqn:E1];
    repeat match goal with
           | |- context [?a - ?b >? w] => destruct (a - b >? w)
           end;
    cbn [snd set_predicted_target predicted_target];
    rewrite ?E0, ?E1; cbn; intros; try reflexivity; discriminate.
Qed.

Lemma filter_rows_fixed w rows :
  forall idx st,
    map (is_kind MINIMUM) (filter_rows w idx st rows) =
    map (is_kind MINIMUM) rows ->
    map (is_kind MAXIMUM) (filter_rows w idx st rows) =
    map (is_kind MAXIMUM) rows ->
    filter_rows w idx st rows = rows.
Proof.
  induction rows as [|r rest IH]; intros idx st Hmin Hmax; [reflexivity|].
  cbn [filter_rows map] in *.
  injection Hmin as Hm Hmin. injection Hmax as HM Hmax.
  f_equal; [now apply filter_step_fixed | now apply IH].
Qed.

(** X15.  A date-sorted table that already keeps the spacing (any two
    rows with the same signal label and no row of that label between them
    are more than [window_size] rows apart) passes through
    [filter_predictions] unchanged. *)
Theorem spaced_table_unchanged (self : ModelPredictor) (df : list row) :
  date_sorted df ->
  (forall k a b,
      signal_kind k -> (a < b)%nat ->
      target_at df a = Some k -> target_at df b = Some k ->
      (forall c, (a < c < b)%nat -> target_at df c <> Some k) ->
      Z.of_nat b - Z.of_nat a > window_size self) ->
  filter_predictions self df = df.
Proof.
  intros Hs Hsp.
  pose proof (sort_values_id df (date_sorted_ordered df Hs)) as Hid.
  assert (Hmask : forall k, signal_kind k ->
            map (is_kind k) (filter_predictions self df) =
            map (is_kind k) df).
  { intros k Hk. rewrite (filter_predictions_kind self df k Hk), Hid.
    apply (nth_ext _ _ false false).
    - now rewrite accept_mask_length.
    - intros j _.
      destruct (nth j (map (is_kind k) df) false) eqn:Ej.
      + apply accept_mask_spaced; [|exact Ej].
        intros a b Hab Ha Hb Hbetween.
        apply (Hsp k a b Hk Hab); [now apply is_kind_nth..|].
        intros c Hc. apply is_kind_nth_false, Hbetween, Hc.
      + destruct (nth j (accept_mask _ _ _ _) false) eqn:E; [|reflexivity].
        apply accept_mask_cand in E. congruence. }
  pose proof (Hmask MINIMUM (or_introl eq_refl)) as Hmin.
  pose proof (Hmask MAXIMUM (or_intror eq_refl)) as Hmax.
  rewrite (filter_predictions_sorted self df Hs) in *.
  now apply filter_rows_fixed.
Qed.

Lemma spaced_table_unchanged_witness :
  filter_predictions (sample_predictor 1 (1 # 10) (9 # 10))
    (sample_table 0 [0; 1; 0; 1]) =
  sample_table 0 [0; 1; 0; 1].
Proof.
  apply spaced_table_unchanged.
  - repeat constructor.
  - intros k a b Hk Hab Ha Hb _.
    destruct b as [|[|[|[|b]]]];
      [lia | | | | destruct b; discriminate Hb];
      destruct a as [|[|[|a]]]; try lia;
      cbn in Ha, Hb; try (cbn; lia); congruence.
Defined.

(** ** Moving the thresholds *)

(** X16.  For the same probabilities, raising [min_threshold] keeps every
    raw minimum a minimum, and lowering [max_threshold] keeps every raw
    maximum a maximum. *)
Theorem thresholds_monotone (mn mn' mx mx' : Q) (y_pred_proba : list Q)
    (i : nat) :
  (mn <= mn')%Q ->
  (mx <= mx')%Q ->
  (nth_error (predict_labels mn mx y_pred_proba) i = Some MINIMUM ->
   nth_error (predict_labels mn' mx y_pred_proba) i = Some MINIMUM) /\
  (nth_error (predict_labels mn mx' y_pred_proba) i = Some MAXIMUM ->
   nth_error (predict_labels mn mx y_pred_proba) i = Some MAXIMUM).
Proof.
  intros Hmn Hmx. rewrite !predict_labels_map, !nth_error_map.
  destruct (nth_error y_pred_proba i) as [p|]; cbn [option_map];
    [|split; discriminate].
  unfold row_label, MINIMUM, MAXIMUM.
  pose proof (Qlt_bool_iff mx p) as H1.
  pose proof (Qlt_bool_iff mx' p) as H1'.
  pose proof (Qlt_bool_iff p mn) as H2.
  pose proof (Qlt_bool_iff p mn') as H2'.
  split.
  - destruct (Qlt_bool mx p); [discriminate|].
    destruct (Qlt_bool p mn); [|discriminate].
    intros _.
    assert (H : (p < mn')%Q)
      by (apply (Qlt_le_trans _ mn); [now apply H2 | exact Hmn]).
    apply H2' in H. now rewrite H.
  - destruct (Qlt_bool mx' p).
    + intros _.
      assert (H : (mx < p)%Q)
        by (apply (Qle_lt_trans _ mx'); [exact Hmx | now apply H1']).
      apply H1 in H. now rewrite H.
    + destruct (Qlt_bool p mn); discriminate.
Qed.

Lemma thresholds_monotone_witness :
  nth_error (predict_labels (2 # 10) (9 # 10) [(15 # 100)%Q]) 0
  = Some MINIMUM.
Proof.
  refine (proj1 (thresholds_monotone (16 # 100) (2 # 10) (9 # 10) (9 # 10)
                   [(15 # 100)%Q] 0 _ _) _).
  - discriminate.
  - discriminate.
  - reflexivity.
Defined.

(** ** Training data on a concrete table *)

(** A minimum, a row marked as both, an unmarked row, a maximum with a
    missing indicator value, and a row whose marks are missing. *)
Example prepare_training_data_sample :
  StockPredictionModel.prepare_training_data
    [StockPredictionModel.mkStockRow [Some (1 # 2)%Q] (Some 5%Q) None;
     StockPredictionModel.mkStockRow [Some (1 # 3)%Q] (Some 5%Q) (Some 6%Q);
     StockPredictionModel.mkStockRow [Some (1 # 4)%Q] (Some 0%Q) None;
     StockPredictionModel.mkStockRow [None] None (Some 7%Q);
     StockPredictionModel.mkStockRow [Some (1 # 5)%Q] None None] =
  [([Some (1 # 2)%Q], 0); ([Some (1 # 3)%Q], 1)].
Proof. reflexivity. Qed.

Lemma prepare_training_data_examples_witness :
  In ([Some (1 # 3)%Q], 1)
    (StockPredictionModel.prepare_training_data
       [StockPredictionModel.mkStockRow [Some (1 # 2)%Q] (Some 5%Q) None;
        StockPredictionModel.mkStockRow [Some (1 # 3)%Q] (Some 5%Q)
          (Some 6%Q)]).
Proof.
  apply (proj2 (prepare_training_data_examples _ _ _)).
  exists (StockPredictionModel.mkStockRow [Some (1 # 3)%Q] (Some 5%Q)
            (Some 6%Q)).
  split; [right; left; reflexivity|].
  split; [reflexivity|]. split; [reflexivity|].
  left. split; reflexivity.
Defined.

Lemma gather_stock_data_rows_witness :
  In (2, 20)
    (StockPredictionModel.gather_stock_data
       (fun s : Z => [10 * s; 10 * s + 1]) [1; 2]).
Proof.
  apply (proj2 (proj1 (gather_stock_data_rows
                         (fun s : Z => [10 * s; 10 * s + 1]) [1; 2] [] 2 20))).
  split; [right; left; reflexivity | left; reflexivity].
Defined.

